(** * The device layer of the KNoT virtual thing (src/device.c)

    A shallow embedding of [device.c]: the sensor registry kept in an ell
    hashmap, the poll tick, the cloud ingress router, the connectivity
    tracker, the single handshake timer and the credential helpers.

    The file keeps one process-wide [struct knot_thing thing]; here it is a
    field of [world], which every function takes and returns.  Code of other
    translation units (the state machine, the Modbus and cloud drivers, the
    change evaluator, the credential file) is reached through the record
    [collaborators]; the calls made to them, to the poller and to the error
    log are appended to [calls] in the order they are made; the calls of
    start-up, shutdown and the uploads are kept in a second log
    ([lifecycle_call]).  The senders of the register and authentication
    requests and the setters of the name, urls and user token, which only
    pass their arguments on, are not covered. *)

From Stdlib Require Import Ascii.
From stdpp Require Import base numbers list option strings gmap.

Local Open Scope Z_scope.

(** ** C strings and character buffers *)

(** A [char] array is the list of its bytes; a [char *] argument is a list
    whose content ends at its first NUL. *)
Abbreviation chars := (list ascii).

Definition NUL : ascii := Ascii.zero.

Definition is_nul (c : ascii) : bool := Ascii.eqb c NUL.

(** The string a buffer holds: its bytes up to the first NUL. *)
Fixpoint cstring (buf : chars) : chars :=
  match buf with
  | [] => []
  | c :: rest => if is_nul c then [] else c :: cstring rest
  end.

(** A text with no NUL in it. *)
Definition no_nul (s : chars) : Prop := Forall (λ c, is_nul c = false) s.

(** [strncpy(dst, src, n)]: the first [n] characters of [src], padded with
    NUL up to [n] bytes; the bytes of [dst] from [n] on are not written. *)
Definition strncpy (dst src : chars) (n : nat) : chars :=
  let s := take n (cstring src) in
  s ++ replicate (n - length s)%nat NUL ++ drop n dst.

(** [buf[0] = '\0'] *)
Definition clear_first (buf : chars) : chars := <[0%nat := NUL]> buf.

(** [sprintf] into [buf], once the text of the conversion is known: the
    text, a NUL, the rest of the buffer as it was. *)
Definition sprintf (buf text : chars) : chars :=
  text ++ NUL :: drop (S (length text)) buf.

(** One digit of the [x] conversion: [0-9] then lowercase [a-f]. *)
Definition hex_digit (d : Z) : ascii :=
  if d <? 10 then ascii_of_nat (Z.to_nat (48 + d))
  else ascii_of_nat (Z.to_nat (87 + d)).

(** Digits of [n] in base 16, most significant first, no leading zero (a
    single [0] for zero).  [fuel] bounds the number of digits. *)
Fixpoint hex_digits (fuel : nat) (n : Z) (acc : chars) : chars :=
  match fuel with
  | O => acc
  | S fuel' =>
      let acc' := hex_digit (n mod 16) :: acc in
      if n / 16 =? 0 then acc' else hex_digits fuel' (n / 16) acc'
  end.

(** ["%" PRIx64] applied to a [uint64_t]: no width, no padding. *)
Definition format_PRIx64 (n : Z) : chars := hex_digits 16 (n mod 2 ^ 64) [].

(** Value of a lowercase hexadecimal digit, and of a digit string. *)
Definition hex_digit_value (c : ascii) : Z :=
  let k := Z.of_nat (nat_of_ascii c) in
  if k <? 58 then k - 48 else k - 87.

Definition hex_value (s : chars) : Z :=
  fold_left (fun v c => 16 * v + hex_digit_value c) s 0.

Definition is_lower_hex (c : ascii) : bool :=
  let k := Z.of_nat (nat_of_ascii c) in
  ((48 <=? k) && (k <=? 57)) || ((97 <=? k) && (k <=? 102)).

(** ** Constants of the protocol headers *)

(** Modelled from the spec: [KNOT_PROTOCOL_UUID_LEN] of knot_protocol.h is
    not under src/; the spec gives the device id as 16 hexadecimal
    characters, and the comment in [device_generate_thing_id] says the same. *)
Definition KNOT_PROTOCOL_UUID_LEN : nat := 16.

Definition EINVAL : Z := 22.

Definition CONNECTED_MASK : Z := 0xFF.

Inductive CONN_TYPE := MODBUS | CLOUD.

Definition conn_bits (c : CONN_TYPE) : Z :=
  match c with MODBUS => 0x0F | CLOUD => 0xF0 end.

(** [(a) ? (b1) | (b2) : (b1) & ~(b2)] *)
Definition set_conn_bitmask (a : bool) (b1 b2 : Z) : Z :=
  if a then Z.lor b1 b2 else Z.land b1 (Z.lnot b2).

(** ** The ell hashmap *)

(** [struct l_hashmap] with the default (pointer) hash and compare, keyed by
    [L_INT_TO_PTR] of an [int].  ell's [l_hashmap_insert] does not compare
    keys: it allows entries with a duplicate key and chains the new entry
    behind the older ones of its bucket; [l_hashmap_lookup] walks the
    bucket from its head and returns the first entry whose key matches.
    Entries of one key are therefore met in insertion order, which is what
    the list records (the order across different keys, which only
    [l_hashmap_foreach] shows, is not represented).  Replacing is a
    different ell function, [l_hashmap_replace], that device.c does not
    call. *)
Definition l_hashmap (V : Type) : Type := list (Z * V).

Definition l_hashmap_new {V} : l_hashmap V := [].

Definition l_hashmap_insert {V} (h : l_hashmap V) (key : Z) (value : V)
  : l_hashmap V :=
  h ++ [(key, value)].

Fixpoint l_hashmap_lookup {V} (h : l_hashmap V) (key : Z) : option V :=
  match h with
  | [] => None
  | (k, v) :: rest =>
      if decide (k = key) then Some v else l_hashmap_lookup rest key
  end.

(** A write through the pointer that [l_hashmap_lookup] returned: the first
    entry with that key is the one changed. *)
Fixpoint l_hashmap_store {V} (h : l_hashmap V) (key : Z) (value : V)
  : l_hashmap V :=
  match h with
  | [] => []
  | (k, v) :: rest =>
      if decide (k = key) then (k, value) :: rest
      else (k, v) :: l_hashmap_store rest key value
  end.

(** ** Types of the KNoT protocol headers *)

(** knot_types.h is not under src/: [knot_config], [knot_schema] and the
    union [knot_value_type] stay abstract.  [value_type] reads
    [schema.value_type]; [zero_value] is the all-zero union that [l_new]
    leaves in a fresh item; [sizeof_value_type] is
    [sizeof(schema.value_type)].  knot_protocol.h is not under src/ either:
    [KNOT_PROTOCOL_TOKEN_LEN] is a parameter. *)
Class KnotTypes := {
  knot_config : Type;
  knot_schema : Type;
  knot_value_type : Type;
  value_type : knot_schema -> Z;
  zero_value : knot_value_type;
  sizeof_value_type : Z;
  KNOT_PROTOCOL_TOKEN_LEN : nat;
}.

(** An [l_queue] of sensor ids: the list of the [int]s its entries point
    to, head first. *)
Abbreviation l_queue := (list Z).

(** Events handed to [sm_input_event], with their [user_data]. *)
Inductive sm_event :=
| EVT_READY
| EVT_NOT_READY
| EVT_TIMEOUT
| EVT_REG_OK (token : chars)
| EVT_REG_NOT_OK
| EVT_AUTH_OK
| EVT_AUTH_NOT_OK
| EVT_SCH_OK
| EVT_SCH_NOT_OK
| EVT_UNREG_REQ
| EVT_DATA_UPDT (list : l_queue)
| EVT_PUB_DATA (list : l_queue).

(** Modelled from the spec: the states of the control state machine of
    sm.c, which is not under src/ (section 4.5 of the spec). *)
Inductive sm_state :=
| DISCONNECTED | REGISTERING | AUTHENTICATING | SCHEMA | ONLINE
| UNREGISTERING | TERMINAL.

(** [enum] of [knot_cloud_msg.type]; [OTHER_MSG] stands for any value the
    [switch] of [on_cloud_receive] sends to [default]. *)
Inductive knot_cloud_msg_type :=
| UPDATE_MSG | REQUEST_MSG | REGISTER_MSG | UNREGISTER_MSG | AUTH_MSG
| SCHEMA_MSG | LIST_MSG | MSG_TYPES_LENGTH | OTHER_MSG (code : Z).

(** The fields of [struct knot_cloud_msg] that device.c reads; [msg_error]
    is the truth value of [msg->error]. *)
Record knot_cloud_msg := {
  msg_type : knot_cloud_msg_type;
  msg_error : bool;
  msg_token : chars;
  msg_list : l_queue;
}.

Section DataModel.
Context `{KT : KnotTypes}.

Record modbus_slave := {
  slave_id : Z;
  slave_url : chars;
}.

Record modbus_source := {
  reg_addr : Z;
  bit_offset : Z;
}.

Record knot_data_item := {
  sensor_id : Z;
  config : knot_config;
  schema : knot_schema;
  current_val : knot_value_type;
  sent_val : knot_value_type;
  modbus_src : modbus_source;
}.

(** [msg_to] is the pointer to the handshake timer: [None] for NULL,
    else the handle of a timer of the ell main loop. *)
Record knot_thing := {
  thing_token : chars;
  thing_id : chars;
  thing_name : chars;
  thing_user_token : chars;
  thing_modbus_slave : modbus_slave;
  thing_rabbitmq_url : chars;
  thing_credentials_path : chars;
  data_items : l_hashmap knot_data_item;
  msg_to : option nat;
}.

(** Calls that leave device.c, in the order they are made. *)
Inductive call :=
| Call_sm_input_event (e : sm_event)
| Call_iface_modbus_read_data (reg bit : Z)
| Call_config_check_value (c : knot_config) (cur sent : knot_value_type)
    (vt : Z)
| Call_knot_cloud_publish_data (id : chars) (sensor : Z) (vt : Z)
    (value : knot_value_type) (len : Z)
| Call_properties_store_credentials (path id token : chars)
| Call_poll_start
| Call_poll_stop
| Call_l_error (sensor : Z).

(** The state the functions of device.c act on: the global [thing], the
    [static uint8_t conn_mask] of [conn_handler], the timers alive in
    the ell main loop (handle to seconds), the state of the state
    machine, and the calls made so far. *)
Record world := {
  thing : knot_thing;
  conn_mask : Z;
  timeouts : gmap nat Z;
  sm : sm_state;
  calls : list call;
}.

(** Code outside device.c.  Each answer may depend on the whole world,
    which includes the history of calls.
    - [sm_handler]: what [sm_input_event] runs; it may call back into
      device.c and so returns a world;
    - [iface_modbus_read_data]: the return code, and the value written
      through the out-pointer if one was written;
    - [config_check_value]: the change evaluator's return code;
    - [knot_cloud_publish_data] and [properties_store_credentials]:
      return codes; the credential store is handed [&thing] and is taken
      to write the file only, as "store(id, token) -> ok/err" in section
      4.6 of the spec;
    - [l_getrandom]: the eight random bytes as an integer. *)
Record collaborators := {
  sm_handler : sm_event -> world -> world;
  iface_modbus_read_data : world -> Z -> Z -> Z * option knot_value_type;
  config_check_value :
    world -> knot_config -> knot_value_type -> knot_value_type -> Z -> Z;
  knot_cloud_publish_data :
    world -> chars -> Z -> Z -> knot_value_type -> Z -> Z;
  properties_store_credentials : world -> chars -> chars -> chars -> Z;
  l_getrandom : world -> Z;
}.

(** *** Field updates *)

Definition set_current_val (v : knot_value_type) (d : knot_data_item) :=
  {| sensor_id := sensor_id d; config := config d; schema := schema d;
     current_val := v; sent_val := sent_val d;
     modbus_src := modbus_src d |}.

Definition set_sent_val (v : knot_value_type) (d : knot_data_item) :=
  {| sensor_id := sensor_id d; config := config d; schema := schema d;
     current_val := current_val d; sent_val := v;
     modbus_src := modbus_src d |}.

Definition set_thing_token (s : chars) (t : knot_thing) :=
  {| thing_token := s; thing_id := thing_id t; thing_name := thing_name t;
     thing_user_token := thing_user_token t;
     thing_modbus_slave := thing_modbus_slave t;
     thing_rabbitmq_url := thing_rabbitmq_url t;
     thing_credentials_path := thing_credentials_path t;
     data_items := data_items t; msg_to := msg_to t |}.

Definition set_thing_id (s : chars) (t : knot_thing) :=
  {| thing_token := thing_token t; thing_id := s;
     thing_name := thing_name t;
     thing_user_token := thing_user_token t;
     thing_modbus_slave := thing_modbus_slave t;
     thing_rabbitmq_url := thing_rabbitmq_url t;
     thing_credentials_path := thing_credentials_path t;
     data_items := data_items t; msg_to := msg_to t |}.

Definition set_data_items (h : l_hashmap knot_data_item) (t : knot_thing) :=
  {| thing_token := thing_token t; thing_id := thing_id t;
     thing_name := thing_name t;
     thing_user_token := thing_user_token t;
     thing_modbus_slave := thing_modbus_slave t;
     thing_rabbitmq_url := thing_rabbitmq_url t;
     thing_credentials_path := thing_credentials_path t;
     data_items := h; msg_to := msg_to t |}.

Definition set_msg_to (p : option nat) (t : knot_thing) :=
  {| thing_token := thing_token t; thing_id := thing_id t;
     thing_name := thing_name t;
     thing_user_token := thing_user_token t;
     thing_modbus_slave := thing_modbus_slave t;
     thing_rabbitmq_url := thing_rabbitmq_url t;
     thing_credentials_path := thing_credentials_path t;
     data_items := data_items t; msg_to := p |}.

Definition set_thing (t : knot_thing) (w : world) :=
  {| thing := t; conn_mask := conn_mask w; timeouts := timeouts w;
     sm := sm w; calls := calls w |}.

Definition set_conn_mask (m : Z) (w : world) :=
  {| thing := thing w; conn_mask := m; timeouts := timeouts w;
     sm := sm w; calls := calls w |}.

Definition set_timeouts (ts : gmap nat Z) (w : world) :=
  {| thing := thing w; conn_mask := conn_mask w; timeouts := ts;
     sm := sm w; calls := calls w |}.

Definition set_sm (s : sm_state) (w : world) :=
  {| thing := thing w; conn_mask := conn_mask w; timeouts := timeouts w;
     sm := s; calls := calls w |}.

(** Record one outgoing call. *)
Definition log (c : call) (w : world) :=
  {| thing := thing w; conn_mask := conn_mask w; timeouts := timeouts w;
     sm := sm w; calls := calls w ++ [c] |}.

(** The item of the registry a sensor id designates. *)
Definition item_of (w : world) (id : Z) : option knot_data_item :=
  l_hashmap_lookup (data_items (thing w)) id.

(** Write an item back through its pointer. *)
Definition store_item (id : Z) (d : knot_data_item) (w : world) : world :=
  set_thing
    (set_data_items (l_hashmap_store (data_items (thing w)) id d) (thing w))
    w.
End DataModel.

(** ** The functions of device.c *)

Section Device.
Context `{KT : KnotTypes} (E : collaborators).

(** [sm_input_event(evt, user_data)]: the call is recorded, then the
    state machine runs. *)
Definition sm_input_event (e : sm_event) (w : world) : world :=
  sm_handler E e (log (Call_sm_input_event e) w).

Definition poll_start (w : world) : world := log Call_poll_start w.

Definition poll_stop (w : world) : world := log Call_poll_stop w.

(** *** Publication *)

Definition on_publish_data (sensor : Z) (w : world) : world :=
  match item_of w sensor with
  | None => w
  | Some data_item =>
      let id := cstring (thing_id (thing w)) in
      let vt := value_type (schema data_item) in
      let rc :=
        knot_cloud_publish_data E w id (sensor_id data_item) vt
          (current_val data_item) sizeof_value_type in
      let w1 :=
        log (Call_knot_cloud_publish_data id (sensor_id data_item) vt
               (current_val data_item) sizeof_value_type) w in
      if rc <? 0 then log (Call_l_error sensor) w1 else w1
  end.

(** [l_queue_foreach(sensor_id_list, on_publish_data, NULL)] *)
Definition device_publish_data_list (sensor_id_list : l_queue) (w : world)
  : world :=
  fold_left (fun w' sensor => on_publish_data sensor w') sensor_id_list w.

Definition on_msg_timeout (w : world) : world :=
  sm_input_event EVT_TIMEOUT w.

Definition on_config_timeout (id : Z) (w : world) : world :=
  sm_input_event (EVT_PUB_DATA [id]) w.

(** *** Cloud ingress *)

Definition on_cloud_receive (msg : knot_cloud_msg) (w : world)
  : bool * world :=
  match msg_type msg with
  | UPDATE_MSG =>
      if negb (msg_error msg)
      then (true, sm_input_event (EVT_DATA_UPDT (msg_list msg)) w)
      else (true, w)
  | REQUEST_MSG =>
      if negb (msg_error msg)
      then (true, sm_input_event (EVT_PUB_DATA (msg_list msg)) w)
      else (true, w)
  | REGISTER_MSG =>
      if msg_error msg
      then (true, sm_input_event EVT_REG_NOT_OK w)
      else (true, sm_input_event (EVT_REG_OK (msg_token msg)) w)
  | UNREGISTER_MSG =>
      if negb (msg_error msg)
      then (true, sm_input_event EVT_UNREG_REQ w)
      else (true, w)
  | AUTH_MSG =>
      if msg_error msg
      then (true, sm_input_event EVT_AUTH_NOT_OK w)
      else (true, sm_input_event EVT_AUTH_OK w)
  | SCHEMA_MSG =>
      if msg_error msg
      then (true, sm_input_event EVT_SCH_NOT_OK w)
      else (true, sm_input_event EVT_SCH_OK w)
  | LIST_MSG | MSG_TYPES_LENGTH | OTHER_MSG _ => (true, w)
  end.

(** *** Connectivity *)

(** The new mask is stored in a [uint8_t]. *)
Definition conn_handler (conn : CONN_TYPE) (is_up : bool) (w : world)
  : world :=
  let mask := set_conn_bitmask is_up (conn_mask w) (conn_bits conn) mod 256 in
  let w1 := set_conn_mask mask w in
  if negb (mask =? CONNECTED_MASK)
  then sm_input_event EVT_NOT_READY w1
  else sm_input_event EVT_READY w1.

Definition on_cloud_disconnected (w : world) : world :=
  conn_handler CLOUD false w.

Definition on_cloud_connected (w : world) : world :=
  conn_handler CLOUD true w.

Definition on_modbus_disconnected (w : world) : world :=
  conn_handler MODBUS false (poll_stop w).

Definition on_modbus_connected (w : world) : world :=
  conn_handler MODBUS true (poll_start w).

(** *** The poll tick *)

Definition on_modbus_poll_receive (id : Z) (w : world) : Z * world :=
  match item_of w id with
  | None => (- EINVAL, w)
  | Some data_item =>
      let reg := reg_addr (modbus_src data_item) in
      let bit := bit_offset (modbus_src data_item) in
      let reply := iface_modbus_read_data E w reg bit in
      let rc := reply.1 in
      let data_item1 :=
        match reply.2 with
        | Some v => set_current_val v data_item
        | None => data_item
        end in
      let w1 :=
        log (Call_iface_modbus_read_data reg bit)
          (store_item id data_item1 w) in
      let vt := value_type (schema data_item1) in
      let check :=
        config_check_value E w1 (config data_item1)
          (current_val data_item1) (sent_val data_item1) vt in
      let w2 :=
        log (Call_config_check_value (config data_item1)
               (current_val data_item1) (sent_val data_item1) vt) w1 in
      if 0 <? check then
        let data_item2 := set_sent_val (current_val data_item1) data_item1 in
        (rc, sm_input_event (EVT_PUB_DATA [id]) (store_item id data_item2 w2))
      else (rc, w2)
  end.

(** *** The sensor registry *)

(** [l_new] zeroes the item, so the two values start at zero. *)
Definition device_set_new_data_item (t : knot_thing) (sensor : Z)
    (sch : knot_schema) (cfg : knot_config) (reg bit : Z) : knot_thing :=
  let data_item_aux :=
    {| sensor_id := sensor; schema := sch; config := cfg;
       current_val := zero_value; sent_val := zero_value;
       modbus_src := {| reg_addr := reg; bit_offset := bit |} |} in
  set_data_items
    (l_hashmap_insert (data_items t) (sensor_id data_item_aux) data_item_aux)
    t.

Definition device_data_item_lookup (t : knot_thing) (sensor : Z)
  : option knot_data_item :=
  l_hashmap_lookup (data_items t) sensor.

(** *** Identity and credentials *)

Definition device_get_id (w : world) : chars := cstring (thing_id (thing w)).

Definition device_set_thing_credentials (t : knot_thing) (id token : chars)
  : knot_thing :=
  set_thing_token (strncpy (thing_token t) token KNOT_PROTOCOL_TOKEN_LEN)
    (set_thing_id (strncpy (thing_id t) id KNOT_PROTOCOL_UUID_LEN) t).

(** [l_strdup(path)] *)
Definition device_set_thing_credentials_path (t : knot_thing) (path : chars)
  : knot_thing :=
  {| thing_token := thing_token t; thing_id := thing_id t;
     thing_name := thing_name t;
     thing_user_token := thing_user_token t;
     thing_modbus_slave := thing_modbus_slave t;
     thing_rabbitmq_url := thing_rabbitmq_url t;
     thing_credentials_path := cstring path;
     data_items := data_items t; msg_to := msg_to t |}.

Definition device_generate_thing_id (w : world) : world :=
  let id := l_getrandom E w mod 2 ^ 64 in
  set_thing
    (set_thing_id (sprintf (thing_id (thing w)) (format_PRIx64 id)) (thing w))
    w.

Definition device_clear_thing_id (t : knot_thing) : knot_thing :=
  set_thing_id (clear_first (thing_id t)) t.

Definition device_clear_thing_token (t : knot_thing) : knot_thing :=
  set_thing_token (clear_first (thing_token t)) t.

Definition device_has_thing_token (w : world) : bool :=
  match thing_token (thing w) with
  | c :: _ => negb (is_nul c)
  | [] => false
  end.

Definition device_store_credentials_on_file (token : chars) (w : world)
  : Z * world :=
  let path := thing_credentials_path (thing w) in
  let id := cstring (thing_id (thing w)) in
  let rc := properties_store_credentials E w path id (cstring token) in
  let w1 := log (Call_properties_store_credentials path id (cstring token)) w in
  if rc <? 0 then (-1, w1)
  else
    (0,
     set_thing
       (set_thing_token
          (strncpy (thing_token (thing w1)) token KNOT_PROTOCOL_TOKEN_LEN)
          (thing w1))
       w1).

Definition device_check_schema_change : Z := 1.

(** *** The handshake timer *)

(** ell timers.  [l_timeout_create] takes [unsigned int] seconds and
    returns a handle not in use; running out of descriptors is not
    modelled.  [l_timeout_remove] and [l_timeout_modify] do nothing on
    NULL; [l_timeout_modify] re-arms only for a positive delay. *)
Definition l_timeout_create (seconds : Z) (w : world) : option nat * world :=
  let h := fresh (dom (timeouts w)) in
  (Some h, set_timeouts (<[h := seconds mod 2 ^ 32]> (timeouts w)) w).

Definition l_timeout_remove (timeout : option nat) (w : world) : world :=
  match timeout with
  | None => w
  | Some h => set_timeouts (delete h (timeouts w)) w
  end.

Definition l_timeout_modify (timeout : option nat) (seconds : Z) (w : world)
  : world :=
  match timeout with
  | None => w
  | Some h =>
      let s := seconds mod 2 ^ 32 in
      if 0 <? s then set_timeouts (alter (fun _ => s) h (timeouts w)) w
      else w
  end.

Definition device_msg_timeout_create (seconds : Z) (w : world) : world :=
  match msg_to (thing w) with
  | Some _ => w
  | None =>
      let r := l_timeout_create seconds w in
      set_thing (set_msg_to r.1 (thing r.2)) r.2
  end.

Definition device_msg_timeout_modify (seconds : Z) (w : world) : world :=
  l_timeout_modify (msg_to (thing w)) seconds w.

Definition device_msg_timeout_remove (w : world) : world :=
  let w1 := l_timeout_remove (msg_to (thing w)) w in
  set_thing (set_msg_to None (thing w1)) w1.

(** The operations of the timeout service, and a run of them. *)
Inductive timeout_op :=
| TO_create (seconds : Z)
| TO_modify (seconds : Z)
| TO_remove.

Definition timeout_step (w : world) (op : timeout_op) : world :=
  match op with
  | TO_create s => device_msg_timeout_create s w
  | TO_modify s => device_msg_timeout_modify s w
  | TO_remove => device_msg_timeout_remove w
  end.

Definition timeout_run (ops : list timeout_op) (w : world) : world :=
  fold_left timeout_step ops w.
End Device.

(** ** Vocabulary of the statements *)

Section Vocabulary.
Context `{KT : KnotTypes} (E : collaborators).

(** What a call sent to the cloud, if it is a publication: the sensor
    and the value published. *)
Definition publication_of (c : call) : option (Z * knot_value_type) :=
  match c with
  | Call_knot_cloud_publish_data _ sensor _ value _ => Some (sensor, value)
  | _ => None
  end.

(** The publications made so far, oldest first. *)
Definition publications (w : world) : list (Z * knot_value_type) :=
  omap publication_of (calls w).

(** The stages a tick goes through for an item [d] found under [id]:
    the item after the Modbus read, the world after the read, the
    evaluator's answer, and the world once the evaluator has answered. *)
Definition tick_reply (d : knot_data_item) (w : world)
  : Z * option knot_value_type :=
  iface_modbus_read_data E w (reg_addr (modbus_src d))
    (bit_offset (modbus_src d)).

Definition tick_item (d : knot_data_item) (w : world) : knot_data_item :=
  match (tick_reply d w).2 with
  | Some v => set_current_val v d
  | None => d
  end.

Definition tick_read (id : Z) (d : knot_data_item) (w : world) : world :=
  log (Call_iface_modbus_read_data (reg_addr (modbus_src d))
         (bit_offset (modbus_src d)))
    (store_item id (tick_item d w) w).

Definition tick_check (id : Z) (d : knot_data_item) (w : world) : Z :=
  let d1 := tick_item d w in
  config_check_value E (tick_read id d w) (config d1) (current_val d1)
    (sent_val d1) (value_type (schema d1)).

Definition tick_checked (id : Z) (d : knot_data_item) (w : world) : world :=
  let d1 := tick_item d w in
  log (Call_config_check_value (config d1) (current_val d1) (sent_val d1)
         (value_type (schema d1)))
    (tick_read id d w).

(** The table of section 4.7 of the spec, row by row: the event an
    inbound message stands for, if any. *)
Definition ingress_table (msg : knot_cloud_msg) : option sm_event :=
  match msg_type msg, msg_error msg with
  | REGISTER_MSG, false => Some (EVT_REG_OK (msg_token msg))
  | REGISTER_MSG, true => Some EVT_REG_NOT_OK
  | AUTH_MSG, false => Some EVT_AUTH_OK
  | AUTH_MSG, true => Some EVT_AUTH_NOT_OK
  | SCHEMA_MSG, false => Some EVT_SCH_OK
  | SCHEMA_MSG, true => Some EVT_SCH_NOT_OK
  | UPDATE_MSG, false => Some (EVT_DATA_UPDT (msg_list msg))
  | REQUEST_MSG, false => Some (EVT_PUB_DATA (msg_list msg))
  | UNREGISTER_MSG, false => Some EVT_UNREG_REQ
  | _, _ => None
  end.

(** What [device_publish_data_list] owes the cloud for one id of its
    list: the current value of the item, nothing for a missing id. *)
Definition due_publication (w : world) (sensor : Z)
  : option (Z * knot_value_type) :=
  d ← item_of w sensor; Some (sensor_id d, current_val d).

(** A call that [device_publish_data_list] may make for the list [l]:
    the publication of an item found under an id of [l], or the error
    log of a failed publication of such an item. *)
Definition call_for_present (w : world) (l : l_queue) (c : call) : Prop :=
  match c with
  | Call_knot_cloud_publish_data _ sensor _ value _ =>
      ∃ k d, k ∈ l ∧ item_of w k = Some d
             ∧ sensor = sensor_id d ∧ value = current_val d
  | Call_l_error k => k ∈ l ∧ is_Some (item_of w k)
  | _ => False
  end.

(** The timer slot and the ell timers agree: the slot is empty and no
    timer is alive, or the slot holds the only timer alive. *)
Definition timeout_slot_ok (w : world) : Prop :=
  match msg_to (thing w) with
  | None => timeouts w = ∅
  | Some h => ∃ s, timeouts w = {[ h := s ]}
  end.

(** The terminator of the token buffer, which no function writes. *)
Definition token_terminated (t : knot_thing) : Prop :=
  thing_token t !! KNOT_PROTOCOL_TOKEN_LEN = Some NUL.

(** The sentences of the spec that the code does not follow, as
    written. *)

(** "The sent value is advanced at publication time, not at evaluation
    time": a tick after which nothing more has been published leaves
    the sent value of its sensor as it was. *)
Definition sent_advanced_at_publication : Prop :=
  ∀ (id : Z) (w : world) (d : knot_data_item),
    item_of w id = Some d →
    let w' := (on_modbus_poll_receive E id w).2 in
    publications w' = publications w →
    sent_val <$> item_of w' id = Some (sent_val d).

(** "Insert with an already-present id replaces the prior entry": after
    any insert, the lookup of that id gives the inserted values. *)
Definition insert_then_lookup_gives_inserted : Prop :=
  ∀ (t : knot_thing) (id : Z) (sch : knot_schema) (cfg : knot_config)
    (reg bit : Z),
    ∃ d, device_data_item_lookup
           (device_set_new_data_item t id sch cfg reg bit) id = Some d
         ∧ schema d = sch ∧ config d = cfg
         ∧ reg_addr (modbus_src d) = reg ∧ bit_offset (modbus_src d) = bit.
End Vocabulary.

(** ** A small installation, to run the functions on *)

(** Values, schemas (their value type) and configs are integers. *)
Definition demo_types : KnotTypes :=
  {| knot_config := Z; knot_schema := Z; knot_value_type := Z;
     value_type := λ s, s; zero_value := 0; sizeof_value_type := 1;
     KNOT_PROTOCOL_TOKEN_LEN := 4 |}.

(** Modelled from the spec: sm.c is not under src/.  The rows of section
    4.5 for PUB_DATA and NOT_READY: in ONLINE, PUB_DATA(list) publishes the
    current value of each sensor of the list; NOT_READY leads to
    DISCONNECTED from any state and cancels the timer; an event with no
    transition in the current state is dropped.  The handshake rows are
    not modelled: their events are not fed to this handler here. *)
Definition sm_rows `{KT : KnotTypes} (E : collaborators) (e : sm_event)
    (w : world) : world :=
  match e with
  | EVT_PUB_DATA l =>
      match sm w with
      | ONLINE => device_publish_data_list E l w
      | _ => w
      end
  | EVT_NOT_READY => set_sm DISCONNECTED (device_msg_timeout_remove w)
  | _ => w
  end.

(** Drivers that answer by fixed rules: register 100 reads 5, register 300
    reads 9, any other register fails with [-EIO] and writes nothing; the
    evaluator is the "change" rule of section 4.3 of the spec; the cloud
    accepts every publication; the credential file can be written unless
    its path is empty; the random draw is [0x0123456789abcdef]. *)
Definition demo_drivers : @collaborators demo_types :=
  @Build_collaborators demo_types
    (* sm_handler *) (λ _ w, w)
    (* iface_modbus_read_data *)
    (λ _ reg _,
       if reg =? 100 then (0, Some 5)
       else if reg =? 300 then (0, Some 9)
       else (-5, None))
    (* config_check_value *) (λ _ _ cur sent _, if cur =? sent then 0 else 1)
    (* knot_cloud_publish_data *) (λ _ _ _ _ _ _, 0)
    (* properties_store_credentials *)
    (λ _ path _ _, match path with [] => -1 | _ => 0 end)
    (* l_getrandom *) (λ _, 0x0123456789abcdef).

Definition demo_env : @collaborators demo_types :=
  @Build_collaborators demo_types
    (sm_rows demo_drivers)
    (iface_modbus_read_data demo_drivers)
    (config_check_value demo_drivers)
    (knot_cloud_publish_data demo_drivers)
    (properties_store_credentials demo_drivers)
    (l_getrandom demo_drivers).

(** The thing as the loader leaves it: zeroed buffers, and three sensors
    declared through [device_set_new_data_item]. *)
Definition demo_thing0 : @knot_thing demo_types :=
  {| thing_token := replicate 5 NUL;
     thing_id := replicate (S KNOT_PROTOCOL_UUID_LEN) NUL;
     thing_name := [];
     thing_user_token := [];
     thing_modbus_slave := {| slave_id := 1; slave_url := [] |};
     thing_rabbitmq_url := [];
     thing_credentials_path := String.list_ascii_of_string "creds.conf";
     data_items := l_hashmap_new;
     msg_to := None |}.

Definition demo_thing : @knot_thing demo_types :=
  device_set_new_data_item
    (device_set_new_data_item
       (device_set_new_data_item demo_thing0 1 10 0 100 0)
       2 20 0 200 0)
    3 30 0 300 0.

Definition demo_world (s : sm_state) : @world demo_types :=
  {| thing := demo_thing; conn_mask := 0xFF; timeouts := ∅; sm := s;
     calls := [] |}.

(** The same, with sensor 2 once read as 7 and last sent as 3. *)
Definition demo_world_stale : @world demo_types :=
  store_item 2
    (@Build_knot_data_item demo_types
       (* sensor_id *) 2 (* config *) 0 (* schema *) 20
       (* current_val *) 7 (* sent_val *) 3
       (* modbus_src *) {| reg_addr := 200; bit_offset := 0 |})
    (demo_world ONLINE).

(** The same, with no path to the credential file. *)
Definition demo_world_no_path : @world demo_types :=
  set_thing (device_set_thing_credentials_path demo_thing [])
    (demo_world REGISTERING).

(** ** The rest of device.c: snapshot, link history, start-up, shutdown *)

Definition DEFAULT_POLLING_INTERVAL : Z := 1.

Section Lifecycle.
Context `{KT : KnotTypes}.

(** Calls of start-up, shutdown and the handshake that [call] does not
    list, in the order they are made. *)
Inductive lifecycle_call :=
| LC_properties_create_device
| LC_sm_start
| LC_poll_create (interval sensor : Z)
| LC_poll_destroy
| LC_iface_modbus_start (url : chars) (slave : Z)
| LC_iface_modbus_stop
| LC_knot_cloud_start (url user_token : chars)
| LC_knot_cloud_stop
| LC_config_start
| LC_config_stop
| LC_config_add_data_item (sensor : Z) (cfg : knot_config)
| LC_knot_cloud_update_schema (id : chars) (schemas : list (Z * knot_schema))
| LC_l_free (s : chars)
| LC_l_hashmap_destroy
| LC_l_error.

(** The world together with the calls of this second kind made so far. *)
Definition boot : Type := world * list lifecycle_call.

(** More code outside device.c.  Each answer may depend on the calls made
    so far.
    - [properties_create_device]: the return code, and the thing as the
      loader has filled it through the setters of device.c;
    - [poll_create], [iface_modbus_start], [knot_cloud_start],
      [config_start], [knot_cloud_update_schema]: return codes;
    - [schema_sensor_id]: the conversion of an [int] sensor id to the type
      of the field [sensor_id] of [knot_msg_schema] (knot_protocol.h, not
      under src/). *)
Record lifecycle_collaborators := {
  properties_create_device : knot_thing -> Z * knot_thing;
  poll_create : list lifecycle_call -> Z -> Z -> Z;
  iface_modbus_start : list lifecycle_call -> chars -> Z -> Z;
  knot_cloud_start : list lifecycle_call -> chars -> chars -> Z;
  config_start : list lifecycle_call -> Z;
  knot_cloud_update_schema :
    list lifecycle_call -> chars -> list (Z * knot_schema) -> Z;
  schema_sensor_id : Z -> Z;
}.

Definition lc_log (cs : list lifecycle_call) (b : boot) : boot :=
  (b.1, b.2 ++ cs).

(** What a call of this kind is, for the statements. *)
Definition poll_created (c : lifecycle_call) : option Z :=
  match c with LC_poll_create _ sensor => Some sensor | _ => None end.

Definition config_added (c : lifecycle_call) : option (Z * knot_config) :=
  match c with
  | LC_config_add_data_item sensor cfg => Some (sensor, cfg)
  | _ => None
  end.

Definition is_teardown (c : lifecycle_call) : bool :=
  match c with
  | LC_poll_destroy | LC_iface_modbus_stop | LC_knot_cloud_stop
  | LC_config_stop | LC_l_free _ | LC_l_hashmap_destroy => true
  | _ => false
  end.

Definition is_poll_call (c : lifecycle_call) : bool :=
  match c with
  | LC_poll_create _ _ | LC_poll_destroy | LC_l_error => true
  | _ => false
  end.

Definition is_modbus_start (c : lifecycle_call) : bool :=
  match c with LC_iface_modbus_start _ _ => true | _ => false end.


(** One notification of a link, and the links a history leaves up. *)
Inductive link_event := Link (conn : CONN_TYPE) (is_up : bool).

Definition same_conn (a b : CONN_TYPE) : bool :=
  match a, b with
  | MODBUS, MODBUS | CLOUD, CLOUD => true
  | _, _ => false
  end.

Definition link_up_after (c : CONN_TYPE) (evs : list link_event) (init : bool)
  : bool :=
  fold_left
    (λ up ev, match ev with Link c' b => if same_conn c' c then b else up end)
    evs init.

(** The mask that stands for the two links: [0x0F] for Modbus up, [0xF0]
    for the cloud up. *)
Definition mask_of (modbus cloud : bool) : Z :=
  (if modbus then conn_bits MODBUS else 0)
  + (if cloud then conn_bits CLOUD else 0).

(** A sensor as the loader declares it: id, schema, config, register
    address, bit offset. *)
Definition declaration : Type := Z * knot_schema * knot_config * Z * Z.

Definition declared_id (decl : declaration) : Z := decl.1.1.1.1.

(** The item [device_set_new_data_item] makes of a declaration. *)
Definition declared_item (decl : declaration) : knot_data_item :=
  let '(id, sch, cfg, reg, bit) := decl in
  {| sensor_id := id; schema := sch; config := cfg;
     current_val := zero_value; sent_val := zero_value;
     modbus_src := {| reg_addr := reg; bit_offset := bit |} |}.

(** Every entry is filed under the sensor id it carries. *)
Definition registry_keyed (h : l_hashmap knot_data_item) : Prop :=
  Forall (λ kv, sensor_id kv.2 = kv.1) h.

(** The two identity buffers have their declared sizes and end with a
    terminator. *)
Definition id_terminated (t : knot_thing) : Prop :=
  thing_id t !! KNOT_PROTOCOL_UUID_LEN = Some NUL.

Definition buffers_ok (t : knot_thing) : Prop :=
  length (thing_id t) = S KNOT_PROTOCOL_UUID_LEN
  ∧ length (thing_token t) = S KNOT_PROTOCOL_TOKEN_LEN
  ∧ id_terminated t
  ∧ thing_token t !! KNOT_PROTOCOL_TOKEN_LEN = Some NUL.
End Lifecycle.

Section DeviceRest.
Context `{KT : KnotTypes} (E : collaborators) (L : lifecycle_collaborators).

(** The order in which [l_hashmap_foreach] meets the entries is the
    hashmap's own (bucket by bucket): [order] gives the entries of a
    hashmap in that order. *)
Variable order : l_hashmap knot_data_item -> l_hashmap knot_data_item.

Definition l_hashmap_foreach {A} (h : l_hashmap knot_data_item)
    (function : Z -> knot_data_item -> A -> A) (user_data : A) : A :=
  fold_left (λ a kv, function kv.1 kv.2 a) (order h) user_data.

(** *** Snapshot *)

Definition foreach_publish_all_data (key : Z) (value : knot_data_item)
    (w : world) : world :=
  on_publish_data E (sensor_id value) w.

Definition device_publish_data_all (w : world) : world :=
  l_hashmap_foreach (data_items (thing w)) foreach_publish_all_data w.

(** *** Link notifications, one after the other *)

Definition link_step (w : world) (ev : link_event) : world :=
  match ev with
  | Link CLOUD true => on_cloud_connected E w
  | Link CLOUD false => on_cloud_disconnected E w
  | Link MODBUS true => on_modbus_connected E w
  | Link MODBUS false => on_modbus_disconnected E w
  end.

Definition link_run (evs : list link_event) (w : world) : world :=
  fold_left link_step evs w.

(** *** Declarations, one after the other *)

Definition declare (t : knot_thing) (decl : declaration) : knot_thing :=
  let '(id, sch, cfg, reg, bit) := decl in
  device_set_new_data_item t id sch cfg reg bit.

Definition declare_all (decls : list declaration) (t : knot_thing)
  : knot_thing :=
  fold_left declare decls t.

(** *** Schema and config upload *)

(** [l_queue_push_head] of a copy of [schema_aux]. *)
Definition foreach_send_schema (key : Z) (value : knot_data_item)
    (schema_queue : list (Z * knot_schema)) : list (Z * knot_schema) :=
  (schema_sensor_id L (sensor_id value), schema value) :: schema_queue.

Definition device_send_schema (b : boot) : Z * boot :=
  let schema_queue :=
    l_hashmap_foreach (data_items (thing b.1)) foreach_send_schema [] in
  let id := cstring (thing_id (thing b.1)) in
  let rc := knot_cloud_update_schema L b.2 id schema_queue in
  (rc, lc_log [LC_knot_cloud_update_schema id schema_queue] b).

Definition foreach_config_add_data_item (key : Z) (value : knot_data_item)
    (b : boot) : boot :=
  lc_log [LC_config_add_data_item (sensor_id value) (config value)] b.

Definition device_start_config (b : boot) : Z * boot :=
  let rc := config_start L b.2 in
  let b1 := lc_log [LC_config_start] b in
  if rc <? 0 then (rc, lc_log [LC_l_error] b1)
  else
    (0, l_hashmap_foreach (data_items (thing b.1))
          foreach_config_add_data_item b1).

Definition device_stop_config (b : boot) : boot := lc_log [LC_config_stop] b.

(** *** Start-up and shutdown *)

(** The timer is removed but [msg_to] is not reset; the strings and the
    hashmap are freed, which the log records. *)
Definition knot_thing_destroy (b : boot) : boot :=
  let w := b.1 in
  let t := thing w in
  let w1 :=
    match msg_to t with
    | Some h => l_timeout_remove (Some h) w
    | None => w
    end in
  (w1,
   b.2 ++ [LC_l_free (thing_user_token t); LC_l_free (thing_rabbitmq_url t);
           LC_l_free (slave_url (thing_modbus_slave t));
           LC_l_free (thing_credentials_path t); LC_l_hashmap_destroy]).

(** [user_data] is the pointer to [rc] of [create_data_item_polling]. *)
Definition foreach_data_item_polling (key : Z) (value : knot_data_item)
    (st : Z * boot) : Z * boot :=
  let answer :=
    poll_create L st.2.2 DEFAULT_POLLING_INTERVAL (sensor_id value) in
  let b1 :=
    lc_log [LC_poll_create DEFAULT_POLLING_INTERVAL (sensor_id value)] st.2 in
  if negb (answer =? 0) then (-1, lc_log [LC_l_error] b1) else (st.1, b1).

Definition create_data_item_polling (b : boot) : Z * boot :=
  let st :=
    l_hashmap_foreach (data_items (thing b.1)) foreach_data_item_polling
      (0, b) in
  if negb (st.1 =? 0) then (st.1, lc_log [LC_poll_destroy] st.2) else st.

Definition device_start (b : boot) : Z * boot :=
  let t0 := set_data_items l_hashmap_new (thing b.1) in
  let r := properties_create_device L t0 in
  let b1 := (set_thing r.2 b.1, b.2 ++ [LC_properties_create_device]) in
  if negb (r.1 =? 0) then (- EINVAL, lc_log [LC_l_error] b1)
  else
    let p := create_data_item_polling (lc_log [LC_sm_start] b1) in
    if p.1 <? 0 then (p.1, knot_thing_destroy (lc_log [LC_l_error] p.2))
    else
      let t := thing p.2.1 in
      let url := slave_url (thing_modbus_slave t) in
      let slave := slave_id (thing_modbus_slave t) in
      let err := iface_modbus_start L p.2.2 url slave in
      let b2 := lc_log [LC_iface_modbus_start url slave] p.2 in
      if err <? 0
      then (err, knot_thing_destroy (lc_log [LC_l_error; LC_poll_destroy] b2))
      else
        let err' :=
          knot_cloud_start L b2.2 (thing_rabbitmq_url t) (thing_user_token t) in
        let b3 :=
          lc_log [LC_knot_cloud_start (thing_rabbitmq_url t)
                    (thing_user_token t)] b2 in
        if err' <? 0
        then
          (err',
           knot_thing_destroy
             (lc_log [LC_l_error; LC_poll_destroy; LC_iface_modbus_stop] b3))
        else (0, b3).

End DeviceRest.

(** Start-up collaborators for the demo: the loader declares the three
    sensors of [demo_thing]; creating the poll of sensor 2 fails when
    [polls_ok] is false; Modbus and the cloud start as [modbus_ok] and
    [cloud_ok] say; the schema message keeps the low byte of a sensor
    id. *)
Definition demo_lifecycle (polls_ok modbus_ok cloud_ok : bool)
  : @lifecycle_collaborators demo_types :=
  @Build_lifecycle_collaborators demo_types
    (* properties_create_device *)
    (λ t,
       (0,
        device_set_new_data_item
          (device_set_new_data_item
             (device_set_new_data_item t 1 10 0 100 0) 2 20 0 200 0)
          3 30 0 300 0))
    (* poll_create *)
    (λ _ _ sensor, if polls_ok || negb (sensor =? 2) then 0 else -12)
    (* iface_modbus_start *) (λ _ _ _, if modbus_ok then 0 else -5)
    (* knot_cloud_start *) (λ _ _ _, if cloud_ok then 0 else -111)
    (* config_start *) (λ _, 0)
    (* knot_cloud_update_schema *) (λ _ _ _, 0)
    (* schema_sensor_id *) (λ id, id mod 256).

(** The demo hashmap is visited in insertion order (ids 1, 2 and 3 fall
    in buckets met in that order). *)
Definition demo_order (h : l_hashmap (@knot_data_item demo_types))
  : l_hashmap (@knot_data_item demo_types) := h.

Definition demo_boot : @boot demo_types := (demo_world DISCONNECTED, []).

(** Two declarations of sensor 1. *)
Definition demo_declarations : list (@declaration demo_types) :=
  [((1, 10, 0, 100, 0) : @declaration demo_types);
   ((1, 11, 0, 101, 0) : @declaration demo_types)].

(** ** Properties *)

(** *** The hashmap *)

Section Hashmap.
Context {V : Type}.
Implicit Types (h : l_hashmap V) (k : Z) (v : V).

Lemma l_hashmap_lookup_app h1 h2 k :
  l_hashmap_lookup (h1 ++ h2) k =
    match l_hashmap_lookup h1 k with
    | Some v => Some v
    | None => l_hashmap_lookup h2 k
    end.
Proof.
  induction h1 as [|[k' v'] h1 IH]; simpl; [done|].
  by destruct (decide (k' = k)).
Qed.

Lemma l_hashmap_lookup_insert_fresh h k v :
  l_hashmap_lookup h k = None →
  l_hashmap_lookup (l_hashmap_insert h k v) k = Some v.
Proof.
  intros Hnone. unfold l_hashmap_insert.
  rewrite l_hashmap_lookup_app, Hnone. simpl.
  by destruct (decide (k = k)).
Qed.

Lemma l_hashmap_lookup_insert_present h k v v0 :
  l_hashmap_lookup h k = Some v0 →
  l_hashmap_lookup (l_hashmap_insert h k v) k = Some v0.
Proof.
  intros Hsome. unfold l_hashmap_insert.
  by rewrite l_hashmap_lookup_app, Hsome.
Qed.

Lemma l_hashmap_lookup_insert_ne h k k' v :
  k ≠ k' →
  l_hashmap_lookup (l_hashmap_insert h k v) k' = l_hashmap_lookup h k'.
Proof.
  intros Hne. unfold l_hashmap_insert. rewrite l_hashmap_lookup_app.
  destruct (l_hashmap_lookup h k'); [done|]. simpl.
  by destruct (decide (k = k')).
Qed.

Lemma l_hashmap_lookup_store h k v :
  is_Some (l_hashmap_lookup h k) →
  l_hashmap_lookup (l_hashmap_store h k v) k = Some v.
Proof.
  induction h as [|[k' v'] h IH]; simpl.
  - by intros [? ?].
  - destruct (decide (k' = k)) as [->|Hne]; simpl.
    + by destruct (decide (k = k)).
    + intros Hs. destruct (decide (k' = k)); [done|]. by apply IH.
Qed.

Lemma l_hashmap_lookup_store_ne h k k' v :
  k ≠ k' →
  l_hashmap_lookup (l_hashmap_store h k v) k' = l_hashmap_lookup h k'.
Proof.
  intros Hne. induction h as [|[k0 v0] h IH]; simpl; [done|].
  destruct (decide (k0 = k)) as [->|Hk]; simpl.
  - by destruct (decide (k = k')).
  - destruct (decide (k0 = k')); [done|]. apply IH.
Qed.

Lemma l_hashmap_store_same h k v :
  l_hashmap_lookup h k = Some v → l_hashmap_store h k v = h.
Proof.
  induction h as [|[k0 v0] h IH]; simpl; [done|].
  destruct (decide (k0 = k)) as [->|Hk]; [congruence|].
  intros Hl. by rewrite IH.
Qed.
End Hashmap.

(** *** The sensor registry *)

Section Registry.
Context `{KT : KnotTypes}.

(** C3, as amended.  Declaring a sensor under an id the registry does not
    hold yet and looking that id up gives an item with the declared
    schema, config, register address and bit offset (and zeroed values);
    declaring it under an id already held replaces nothing: the lookup
    goes on giving the item that was there. *)
Theorem device_set_new_data_item_then_lookup
    (t : knot_thing) (id : Z) (sch : knot_schema) (cfg : knot_config)
    (reg bit : Z) :
  let t' := device_set_new_data_item t id sch cfg reg bit in
  (device_data_item_lookup t id = None →
   ∃ d, device_data_item_lookup t' id = Some d
        ∧ sensor_id d = id ∧ schema d = sch ∧ config d = cfg
        ∧ reg_addr (modbus_src d) = reg ∧ bit_offset (modbus_src d) = bit
        ∧ current_val d = zero_value ∧ sent_val d = zero_value)
  ∧ (∀ d0, device_data_item_lookup t id = Some d0 →
           device_data_item_lookup t' id = Some d0).
Proof.
  unfold device_data_item_lookup, device_set_new_data_item; simpl.
  split.
  - intros Hnone. eexists. split.
    + by apply l_hashmap_lookup_insert_fresh.
    + by simpl.
  - intros d0 Hsome. by apply l_hashmap_lookup_insert_present.
Qed.

(** X20.  Declaring a sensor leaves the lookup of every other id as it
    was. *)
Lemma device_set_new_data_item_other
    (t : knot_thing) (id id' : Z) (sch : knot_schema) (cfg : knot_config)
    (reg bit : Z) :
  id ≠ id' →
  device_data_item_lookup (device_set_new_data_item t id sch cfg reg bit) id'
  = device_data_item_lookup t id'.
Proof.
  intros Hne. unfold device_data_item_lookup, device_set_new_data_item.
  simpl. by apply l_hashmap_lookup_insert_ne.
Qed.
End Registry.

(** Sensor 1 of [demo_thing] carries schema 10 and register 100.  Declared
    again with schema 11 and register 101, it is still found with 10 and
    100; sensor 4, new, is found as declared. *)
Lemma device_set_new_data_item_then_lookup_witness :
  (∃ d, device_data_item_lookup
          (device_set_new_data_item demo_thing 4 40 0 400 2) 4 = Some d
        ∧ sensor_id d = 4 ∧ schema d = 40 ∧ config d = 0
        ∧ reg_addr (modbus_src d) = 400 ∧ bit_offset (modbus_src d) = 2
        ∧ current_val d = 0 ∧ sent_val d = 0)
  ∧ (schema <$> device_data_item_lookup
                  (device_set_new_data_item demo_thing 1 11 0 101 0) 1)
    = Some 10.
Proof.
  pose proof (@device_set_new_data_item_then_lookup demo_types demo_thing 4
                40 0 400 2) as [Hfresh _].
  pose proof (@device_set_new_data_item_then_lookup demo_types demo_thing 1
                11 0 101 0) as [_ Hkept].
  split.
  - apply Hfresh. reflexivity.
  - specialize (Hkept _ ltac:(vm_compute; reflexivity)).
    rewrite Hkept. reflexivity.
Defined.

(** C3, as the spec has it, fails on sensor 1 of [demo_thing]: declared
    again with schema 11, the lookup does not give schema 11. *)
Lemma insert_then_lookup_gives_inserted_counterexample :
  ¬ @insert_then_lookup_gives_inserted demo_types.
Proof.
  intros Hclaim.
  destruct (Hclaim demo_thing 1 11 0 101 0) as (d & Hd & Hsch & _).
  vm_compute in Hd. injection Hd as <-. vm_compute in Hsch. discriminate.
Qed.

(** *** The poll tick *)

Section Tick.
Context `{KT : KnotTypes} (E : collaborators).
Implicit Types (w : world) (d : knot_data_item) (id : Z).

Lemma item_of_store_item id d w :
  is_Some (item_of w id) → item_of (store_item id d w) id = Some d.
Proof. intros Hs. unfold item_of, store_item. simpl.
       by apply l_hashmap_lookup_store. Qed.

Lemma item_of_store_item_ne id id' d w :
  id ≠ id' → item_of (store_item id d w) id' = item_of w id'.
Proof. intros Hne. unfold item_of, store_item. simpl.
       by apply l_hashmap_lookup_store_ne. Qed.

Lemma publications_log c w :
  publications (log c w) =
    publications w ++ match publication_of c with
                      | Some p => [p]
                      | None => []
                      end.
Proof.
  unfold publications, log. simpl. rewrite omap_app. simpl.
  by destruct (publication_of c).
Qed.

Lemma sensor_id_tick_item d w : sensor_id (tick_item E d w) = sensor_id d.
Proof. unfold tick_item. by destruct (tick_reply E d w).2. Qed.

Lemma sent_val_tick_item d w : sent_val (tick_item E d w) = sent_val d.
Proof. unfold tick_item. by destruct (tick_reply E d w).2. Qed.

Lemma config_tick_item d w : config (tick_item E d w) = config d.
Proof. unfold tick_item. by destruct (tick_reply E d w).2. Qed.

Lemma schema_tick_item d w : schema (tick_item E d w) = schema d.
Proof. unfold tick_item. by destruct (tick_reply E d w).2. Qed.

(** The value the evaluator is shown: the one the read wrote, or the
    existing one when the read wrote nothing. *)
Lemma current_val_tick_item d w :
  current_val (tick_item E d w) =
    match (tick_reply E d w).2 with
    | Some v => v
    | None => current_val d
    end.
Proof. unfold tick_item. by destruct (tick_reply E d w).2. Qed.

Lemma item_of_tick_checked id d w :
  item_of w id = Some d →
  item_of (tick_checked E id d w) id = Some (tick_item E d w).
Proof.
  intros Hd. unfold tick_checked, tick_read.
  change (item_of (store_item id (tick_item E d w) w) id = Some (tick_item E d w)).
  apply item_of_store_item. by rewrite Hd.
Qed.

Lemma calls_tick_checked id d w :
  calls (tick_checked E id d w) =
    calls w ++
    [Call_iface_modbus_read_data (reg_addr (modbus_src d))
       (bit_offset (modbus_src d));
     Call_config_check_value (config d) (current_val (tick_item E d w))
       (sent_val d) (value_type (schema d))].
Proof.
  unfold tick_checked, tick_read, log. simpl.
  rewrite config_tick_item, sent_val_tick_item, schema_tick_item.
  by rewrite <- app_assoc.
Qed.

Lemma publications_tick_checked id d w :
  publications (tick_checked E id d w) = publications w.
Proof.
  unfold publications. rewrite calls_tick_checked, omap_app. simpl.
  by rewrite app_nil_r.
Qed.

(** A tick on a registered sensor, stage by stage. *)
Lemma on_modbus_poll_receive_present id w d :
  item_of w id = Some d →
  on_modbus_poll_receive E id w =
    ((tick_reply E d w).1,
     if 0 <? tick_check E id d w
     then sm_input_event E (EVT_PUB_DATA [id])
            (store_item id
               (set_sent_val (current_val (tick_item E d w))
                  (tick_item E d w))
               (tick_checked E id d w))
     else tick_checked E id d w).
Proof.
  intros Hd. unfold on_modbus_poll_receive. rewrite Hd.
  fold (tick_reply E d w). fold (tick_item E d w).
  fold (tick_read E id d w). fold (tick_check E id d w).
  fold (tick_checked E id d w).
  by destruct (0 <? tick_check E id d w).
Qed.

(** What one publication does: the current value of the item goes to
    the cloud, and the registry is not written. *)
Lemma on_publish_data_present id w d :
  item_of w id = Some d →
  publications (on_publish_data E id w) =
    publications w ++ [(sensor_id d, current_val d)]
  ∧ thing (on_publish_data E id w) = thing w.
Proof.
  intros Hd. unfold on_publish_data. rewrite Hd.
  match goal with |- context [if ?b then _ else _] => destruct b end.
  - rewrite !publications_log. simpl. by rewrite app_nil_r.
  - by rewrite publications_log.
Qed.

Lemma on_publish_data_absent id w :
  item_of w id = None → on_publish_data E id w = w.
Proof. intros Hd. unfold on_publish_data. by rewrite Hd. Qed.

(** C5.  A tick whose sensor id is not in the registry returns
    [-EINVAL] and leaves the world as it was: the list of calls is the
    same, so no Modbus read was made, the evaluator was not asked and no
    event was raised, and the registry is the same, so no sensor
    changed. *)
Theorem on_modbus_poll_receive_absent id w :
  item_of w id = None →
  on_modbus_poll_receive E id w = (- EINVAL, w).
Proof. intros Hd. unfold on_modbus_poll_receive. by rewrite Hd. Qed.

(** C1, as amended.  On a tick for a registered sensor, when the
    evaluator answers "publish" the sent value is set to the current
    value before the PUB_DATA event is handed to the state machine, with
    nothing published in between; a publication of the sensor made from
    there carries that current value and writes neither value.  When the
    evaluator does not answer "publish", the sent value stays and no
    event is raised. *)
Theorem on_modbus_poll_receive_sent_at_evaluation id w d :
  item_of w id = Some d →
  let d1 := tick_item E d w in
  let w2 := tick_checked E id d w in
  let w3 := store_item id (set_sent_val (current_val d1) d1) w2 in
  (0 < tick_check E id d w →
   on_modbus_poll_receive E id w
   = ((tick_reply E d w).1, sm_input_event E (EVT_PUB_DATA [id]) w3)
   ∧ item_of w3 id = Some (set_sent_val (current_val d1) d1)
   ∧ publications w3 = publications w
   ∧ publications (on_publish_data E id w3)
     = publications w3 ++ [(sensor_id d, current_val d1)]
   ∧ item_of (on_publish_data E id w3) id = item_of w3 id)
  ∧ (tick_check E id d w ≤ 0 →
     on_modbus_poll_receive E id w = ((tick_reply E d w).1, w2)
     ∧ sent_val <$> item_of w2 id = Some (sent_val d)
     ∧ publications w2 = publications w).
Proof.
  intros Hd d1 w2 w3.
  pose proof (on_modbus_poll_receive_present id w d Hd) as Htick.
  assert (Hw2 : item_of w2 id = Some d1) by by apply item_of_tick_checked.
  assert (Hw3 : item_of w3 id = Some (set_sent_val (current_val d1) d1)).
  { apply item_of_store_item. by rewrite Hw2. }
  split.
  - intros Hpub. apply Z.ltb_lt in Hpub. rewrite Hpub in Htick.
    split; [exact Htick|]. split; [exact Hw3|].
    split; [apply publications_tick_checked|].
    destruct (on_publish_data_present id w3 _ Hw3) as [Hp Ht].
    split.
    + rewrite Hp. simpl. subst d1. by rewrite sensor_id_tick_item.
    + unfold item_of. by rewrite Ht.
  - intros Hhold. apply Z.ltb_ge in Hhold. rewrite Hhold in Htick.
    split; [exact Htick|]. split.
    + rewrite Hw2. simpl. subst d1. by rewrite sent_val_tick_item.
    + apply publications_tick_checked.
Qed.

(** C9.  On a tick for a registered sensor whose Modbus read fails, the
    tick returns the read's error code whatever the evaluator answers;
    the evaluator is still asked, on the item's config, its current
    value (the existing one when the failed read wrote nothing) and its
    sent value; on "publish" the sent value is set to that current value
    and PUB_DATA is raised for the sensor, otherwise nothing more
    happens. *)
Theorem on_modbus_poll_receive_read_failure id w d :
  item_of w id = Some d →
  (tick_reply E d w).1 < 0 →
  let d1 := tick_item E d w in
  let w2 := tick_checked E id d w in
  (on_modbus_poll_receive E id w).1 = (tick_reply E d w).1
  ∧ ((tick_reply E d w).2 = None → d1 = d)
  ∧ calls w2 =
      calls w ++
      [Call_iface_modbus_read_data (reg_addr (modbus_src d))
         (bit_offset (modbus_src d));
       Call_config_check_value (config d) (current_val d1) (sent_val d)
         (value_type (schema d))]
  ∧ (0 < tick_check E id d w →
     (on_modbus_poll_receive E id w).2
     = sm_input_event E (EVT_PUB_DATA [id])
         (store_item id (set_sent_val (current_val d1) d1) w2)
     ∧ item_of (store_item id (set_sent_val (current_val d1) d1) w2) id
       = Some (set_sent_val (current_val d1) d1))
  ∧ (tick_check E id d w ≤ 0 →
     (on_modbus_poll_receive E id w).2 = w2
     ∧ item_of w2 id = Some d1).
Proof.
  intros Hd Hrc d1 w2.
  pose proof (on_modbus_poll_receive_present id w d Hd) as Htick.
  assert (Hw2 : item_of w2 id = Some d1) by by apply item_of_tick_checked.
  split; [by rewrite Htick|].
  split. { intros Hnone. subst d1. unfold tick_item. by rewrite Hnone. }
  split; [apply calls_tick_checked|].
  split.
  - intros Hpub. apply Z.ltb_lt in Hpub. rewrite Hpub in Htick.
    split; [by rewrite Htick|].
    apply item_of_store_item. by rewrite Hw2.
  - intros Hhold. apply Z.ltb_ge in Hhold. rewrite Hhold in Htick.
    split; [by rewrite Htick|done].
Qed.
End Tick.

(** Sensor 1 of the demo reads 5 where 0 was sent last.  With the state
    machine ONLINE the tick publishes 5 and leaves 5 as the sent value. *)
Lemma on_modbus_poll_receive_sent_at_evaluation_witness :
  ∃ d, item_of (demo_world ONLINE) 1 = Some d
       ∧ 0 < tick_check demo_env 1 d (demo_world ONLINE)
       ∧ publications (on_modbus_poll_receive demo_env 1 (demo_world ONLINE)).2
         = [(1, 5)]
       ∧ sent_val <$>
           item_of (on_modbus_poll_receive demo_env 1 (demo_world ONLINE)).2 1
         = Some 5.
Proof.
  eexists. split; [reflexivity|].
  split; [vm_compute; reflexivity|].
  destruct (on_modbus_poll_receive_sent_at_evaluation demo_env 1
              (demo_world ONLINE) _ eq_refl) as [Hpub _].
  destruct (Hpub ltac:(vm_compute; reflexivity)) as (Htick & _).
  rewrite Htick. split; vm_compute; reflexivity.
Defined.

(** C1, as the spec has it, fails on sensor 1 of the demo while the state
    machine is DISCONNECTED: the tick reads 5, the evaluator answers
    "publish", the state machine drops PUB_DATA, nothing is published, and
    the sent value has gone from 0 to 5. *)
Lemma sent_advanced_at_publication_counterexample :
  ¬ sent_advanced_at_publication demo_env.
Proof.
  intros Hclaim.
  specialize (Hclaim 1 (demo_world DISCONNECTED) _ eq_refl).
  vm_compute in Hclaim. specialize (Hclaim eq_refl). discriminate.
Qed.

(** Sensor 7 is not declared in the demo. *)
Lemma on_modbus_poll_receive_absent_witness :
  item_of (demo_world ONLINE) 7 = None
  ∧ on_modbus_poll_receive demo_env 7 (demo_world ONLINE)
    = (-22, demo_world ONLINE).
Proof.
  split; [reflexivity|].
  apply (on_modbus_poll_receive_absent demo_env 7 (demo_world ONLINE)).
  reflexivity.
Defined.

(** Register 200 of the demo cannot be read.  With 7 as current and 3 as
    sent value of sensor 2, the tick returns -5, asks the evaluator about
    7 against 3, and leaves 7 as the sent value. *)
Lemma on_modbus_poll_receive_read_failure_witness :
  ∃ d, item_of demo_world_stale 2 = Some d
       ∧ (tick_reply demo_env d demo_world_stale).1 < 0
       ∧ (on_modbus_poll_receive demo_env 2 demo_world_stale).1 = -5
       ∧ calls (tick_checked demo_env 2 d demo_world_stale)
         = [@Call_iface_modbus_read_data demo_types 200 0;
            @Call_config_check_value demo_types 0 7 3 20]
       ∧ sent_val <$>
           item_of (on_modbus_poll_receive demo_env 2 demo_world_stale).2 2
         = Some 7.
Proof.
  eexists. split; [reflexivity|].
  split; [vm_compute; reflexivity|].
  destruct (on_modbus_poll_receive_read_failure demo_env 2 demo_world_stale _
              eq_refl ltac:(vm_compute; reflexivity))
    as (Hrc & _ & Hcalls & Hpub & _).
  split; [rewrite Hrc; reflexivity|].
  split; [rewrite Hcalls; reflexivity|].
  destruct (Hpub ltac:(vm_compute; reflexivity)) as [Hw _].
  rewrite Hw. vm_compute. reflexivity.
Defined.

(** *** Publication of a list of sensors *)

Section Publication.
Context `{KT : KnotTypes} (E : collaborators).
Implicit Types (w : world) (l : l_queue).

Lemma item_of_same_thing w w' k :
  thing w' = thing w → item_of w' k = item_of w k.
Proof. intros Ht. unfold item_of. by rewrite Ht. Qed.

Lemma due_publication_same_thing w w' k :
  thing w' = thing w → due_publication w' k = due_publication w k.
Proof. intros Ht. unfold due_publication. by rewrite (item_of_same_thing w w'). Qed.

Lemma omap_due_same_thing w w' l :
  thing w' = thing w →
  omap (due_publication w') l = omap (due_publication w) l.
Proof.
  intros Ht. induction l as [|k l IH]; simpl; [done|].
  rewrite (due_publication_same_thing w w' k Ht).
  destruct (due_publication w k); [f_equal|]; exact IH.
Qed.

Lemma call_for_present_mono w w' l l' c :
  thing w' = thing w → l ⊆ l' →
  call_for_present w' l c → call_for_present w l' c.
Proof.
  intros Ht Hl. destruct c; simpl; try done.
  - intros (k & d & Hk & Hd & Hs & Hv). exists k, d.
    rewrite <- (item_of_same_thing w w' k Ht). auto.
  - intros [Hk Hs]. rewrite <- (item_of_same_thing w w' sensor Ht). auto.
Qed.

(** One element of the list. *)
Lemma on_publish_data_step k w :
  thing (on_publish_data E k w) = thing w
  ∧ publications (on_publish_data E k w)
    = publications w ++ omap (due_publication w) [k]
  ∧ ∃ cs, calls (on_publish_data E k w) = calls w ++ cs
          ∧ Forall (call_for_present w [k]) cs.
Proof.
  destruct (item_of w k) as [d|] eqn:Hd.
  - destruct (on_publish_data_present E k w d Hd) as [Hp Ht].
    split; [done|]. split.
    { rewrite Hp. simpl. unfold due_publication. by rewrite Hd. }
    unfold on_publish_data. rewrite Hd.
    assert (Hpub : call_for_present w [k]
              (Call_knot_cloud_publish_data (cstring (thing_id (thing w)))
                 (sensor_id d) (value_type (schema d)) (current_val d)
                 sizeof_value_type)).
    { simpl. exists k, d. split; [by apply list_elem_of_singleton|done]. }
    assert (Herr : call_for_present w [k] (Call_l_error k)).
    { simpl. split; [by apply list_elem_of_singleton|by rewrite Hd]. }
    match goal with |- context [if ?b then _ else _] => destruct b end.
    + eexists [_; _]. split.
      * unfold log. simpl. by rewrite <- app_assoc.
      * by repeat constructor.
    + eexists [_]. split; [done|]. by repeat constructor.
  - rewrite (on_publish_data_absent E k w Hd).
    split; [done|]. split.
    { simpl. unfold due_publication. rewrite Hd. simpl. by rewrite app_nil_r. }
    exists []. split; [by rewrite app_nil_r|constructor].
Qed.

(** C8.  Handling a list of sensor ids sends the cloud one publication
    for each id of the list that the registry holds, in list order,
    carrying the item's current value; an id the registry does not hold
    adds no call at all (no publication, no error log), and the ids
    after it are handled all the same.  The registry is not written. *)
Theorem device_publish_data_list_publishes_present l w :
  let w' := device_publish_data_list E l w in
  thing w' = thing w
  ∧ publications w' = publications w ++ omap (due_publication w) l
  ∧ ∃ cs, calls w' = calls w ++ cs ∧ Forall (call_for_present w l) cs.
Proof.
  revert w. induction l as [|k l IH]; intros w; simpl.
  - split; [done|]. split; [by rewrite app_nil_r|].
    exists []. split; [by rewrite app_nil_r|constructor].
  - destruct (on_publish_data_step k w) as (Ht1 & Hp1 & cs1 & Hc1 & Hf1).
    destruct (IH (on_publish_data E k w)) as (Ht & Hp & cs & Hc & Hf).
    unfold device_publish_data_list in *. simpl.
    split; [congruence|]. split.
    + rewrite Hp, Hp1, (omap_due_same_thing w _ l Ht1), <- app_assoc.
      f_equal. simpl. by destruct (due_publication w k).
    + exists (cs1 ++ cs). split.
      * by rewrite Hc, Hc1, <- app_assoc.
      * apply Forall_app. split.
        -- eapply Forall_impl; [exact Hf1|]. intros c.
           apply call_for_present_mono; [done|].
           intros x ->%list_elem_of_singleton. left.
        -- eapply Forall_impl; [exact Hf|]. intros c.
           apply call_for_present_mono; [done|].
           intros x Hx. by right.
Qed.
End Publication.

(** Sensors 1 and 3 of the demo are declared, 7 is not: the list 1, 7, 3
    gives two publications, of the two current values, and nothing else. *)
Example device_publish_data_list_skips_missing :
  calls (device_publish_data_list demo_env [1; 7; 3] (demo_world ONLINE))
  = [@Call_knot_cloud_publish_data demo_types [] 1 10 0 1;
     @Call_knot_cloud_publish_data demo_types [] 3 30 0 1].
Proof. reflexivity. Qed.

(** *** Cloud ingress *)

Section Ingress.
Context `{KT : KnotTypes} (E : collaborators).

(** C4.  For every inbound message, [on_cloud_receive] raises the event
    that the table of the spec gives for the message's kind and error
    flag, and only that one; where the table has no event (an errored
    UPDATE, REQUEST or UNREGISTER, a LIST, any other kind) it raises
    none and leaves the world as it was.  It returns true in all
    cases.  A REG_OK event carries the token of the message, DATA_UPDT
    and PUB_DATA its list. *)
Theorem on_cloud_receive_follows_table (msg : knot_cloud_msg) (w : world) :
  on_cloud_receive E msg w =
    (true,
     match ingress_table msg with
     | Some e => sm_input_event E e w
     | None => w
     end).
Proof.
  unfold on_cloud_receive, ingress_table.
  destruct (msg_type msg), (msg_error msg); reflexivity.
Qed.
End Ingress.

(** *** Connectivity *)

Section Connectivity.
Context `{KT : KnotTypes} (E : collaborators).
Implicit Types (w : world).

(** Clearing the bits of either link never leaves the mask full. *)
Lemma set_conn_bitmask_down_not_connected (c : CONN_TYPE) (m : Z) :
  set_conn_bitmask false m (conn_bits c) mod 256 ≠ CONNECTED_MASK.
Proof.
  unfold set_conn_bitmask, CONNECTED_MASK. intros Heq.
  set (i := match c with MODBUS => 0 | CLOUD => 4 end).
  apply (f_equal (λ x, Z.testbit x i)) in Heq. simpl in Heq.
  change 256 with (2 ^ 8) in Heq.
  rewrite Z.mod_pow2_bits_low, Z.land_spec in Heq by (by destruct c).
  destruct c; simpl in Heq; rewrite andb_false_r in Heq; discriminate.
Qed.

Lemma conn_handler_down (c : CONN_TYPE) w :
  conn_handler E c false w =
    sm_input_event E EVT_NOT_READY
      (set_conn_mask (set_conn_bitmask false (conn_mask w) (conn_bits c)
                        mod 256) w).
Proof.
  unfold conn_handler.
  destruct (Z.eqb_spec
              (set_conn_bitmask false (conn_mask w) (conn_bits c) mod 256)
              CONNECTED_MASK) as [Heq|Hne]; [|done].
  by apply set_conn_bitmask_down_not_connected in Heq.
Qed.

(** C6.  When the cloud link drops, [on_cloud_disconnected] clears the
    cloud bits of the mask and raises NOT_READY, and that is all it
    does: the world handed to the state machine has the calls of before,
    so [poll_stop] was not called.  [on_modbus_disconnected] is the
    handler that calls [poll_stop] before raising NOT_READY.  And a tick
    looks neither at the mask nor at the state machine: whatever they
    are, on a registered sensor it reads Modbus and, when the read
    delivers a value, stores it as the current value before anything
    else is given control. *)
Theorem on_cloud_disconnected_keeps_polling w :
  (∃ m, m ≠ CONNECTED_MASK
        ∧ on_cloud_disconnected E w
          = sm_input_event E EVT_NOT_READY (set_conn_mask m w)
        ∧ calls (set_conn_mask m w) = calls w)
  ∧ (∃ m, m ≠ CONNECTED_MASK
          ∧ on_modbus_disconnected E w
            = sm_input_event E EVT_NOT_READY
                (set_conn_mask m (log Call_poll_stop w)))
  ∧ (∀ id d v,
       item_of w id = Some d →
       (tick_reply E d w).2 = Some v →
       ∃ w2, calls w2 =
               calls w ++
               [Call_iface_modbus_read_data (reg_addr (modbus_src d))
                  (bit_offset (modbus_src d));
                Call_config_check_value (config d) v (sent_val d)
                  (value_type (schema d))]
             ∧ current_val <$> item_of w2 id = Some v
             ∧ ((on_modbus_poll_receive E id w).2 = w2
                ∨ (on_modbus_poll_receive E id w).2
                  = sm_input_event E (EVT_PUB_DATA [id])
                      (store_item id (set_sent_val v (set_current_val v d))
                         w2))).
Proof.
  split; [|split].
  - eexists. split; [apply (set_conn_bitmask_down_not_connected CLOUD)|].
    split; [apply conn_handler_down|done].
  - eexists. split; [apply (set_conn_bitmask_down_not_connected MODBUS)|].
    unfold on_modbus_disconnected, poll_stop. apply conn_handler_down.
  - intros id d v Hd Hv.
    pose proof (on_modbus_poll_receive_present E id w d Hd) as Htick.
    assert (Hitem : tick_item E d w = set_current_val v d).
    { unfold tick_item. by rewrite Hv. }
    exists (tick_checked E id d w). split; [|split].
    + rewrite calls_tick_checked, Hitem. done.
    + rewrite (item_of_tick_checked E id d w Hd), Hitem. done.
    + rewrite Htick, Hitem. simpl.
      destruct (0 <? tick_check E id d w); [by right|by left].
Qed.
End Connectivity.

(** The demo goes ONLINE to DISCONNECTED on a cloud drop without a call to
    [poll_stop]; the next tick of sensor 1 reads 5 and keeps it as the
    current value, and nothing is published. *)
Lemma on_cloud_disconnected_keeps_polling_witness :
  let w := on_cloud_disconnected demo_env (demo_world ONLINE) in
  (∃ m, m ≠ CONNECTED_MASK
        ∧ w = sm_input_event demo_env EVT_NOT_READY
                (set_conn_mask m (demo_world ONLINE)))
  ∧ sm w = DISCONNECTED
  ∧ calls w = [@Call_sm_input_event demo_types EVT_NOT_READY]
  ∧ (∃ d : @knot_data_item demo_types,
        item_of w 1 = Some d
        ∧ (tick_reply demo_env d w).2 = Some 5
        ∧ ∃ w2 : @world demo_types,
            (@current_val demo_types <$> item_of w2 1) = Some 5
                  ∧ ((on_modbus_poll_receive demo_env 1 w).2 = w2
                     ∨ (on_modbus_poll_receive demo_env 1 w).2
                       = sm_input_event demo_env (EVT_PUB_DATA [1])
                           (store_item 1
                              (@set_sent_val demo_types 5
                                 (@set_current_val demo_types 5 d))
                              w2)))
  ∧ current_val <$> item_of (on_modbus_poll_receive demo_env 1 w).2 1 = Some 5
  ∧ publications (on_modbus_poll_receive demo_env 1 w).2 = [].
Proof.
  intros w.
  destruct (on_cloud_disconnected_keeps_polling demo_env (demo_world ONLINE))
    as ((m & Hm & Hdrop & _) & _ & _).
  destruct (on_cloud_disconnected_keeps_polling demo_env w) as (_ & _ & Htick).
  destruct (Htick 1 _ 5 eq_refl eq_refl) as (w2 & _ & Hcur & Hend).
  split; [exists m; split; [exact Hm|exact Hdrop]|].
  split; [reflexivity|]. split; [reflexivity|].
  split.
  - eexists. split; [reflexivity|]. split; [reflexivity|].
    exists w2. split; [exact Hcur|exact Hend].
  - split; reflexivity.
Defined.

(** *** The handshake timer *)

Section Timeout.
Context `{KT : KnotTypes}.
Implicit Types (w : world) (s : Z).

Lemma device_msg_timeout_create_occupied s w :
  is_Some (msg_to (thing w)) → device_msg_timeout_create s w = w.
Proof. intros [h Hh]. unfold device_msg_timeout_create. by rewrite Hh. Qed.

Lemma device_msg_timeout_create_empty s w :
  msg_to (thing w) = None →
  timeouts w = ∅ →
  let w' := device_msg_timeout_create s w in
  ∃ h, msg_to (thing w') = Some h ∧ timeouts w' = {[ h := s mod 2 ^ 32 ]}.
Proof.
  intros Hslot Hnone. unfold device_msg_timeout_create. rewrite Hslot.
  simpl. eexists. split; [done|]. rewrite Hnone. apply insert_empty.
Qed.

Lemma device_msg_timeout_remove_empties w :
  timeout_slot_ok w →
  msg_to (thing (device_msg_timeout_remove w)) = None
  ∧ timeouts (device_msg_timeout_remove w) = ∅.
Proof.
  unfold timeout_slot_ok, device_msg_timeout_remove, l_timeout_remove.
  destruct (msg_to (thing w)) as [h|]; simpl.
  - intros [s0 ->]. split; [done|]. apply delete_singleton_eq.
  - done.
Qed.

Lemma timeout_step_slot_ok w (op : timeout_op) :
  timeout_slot_ok w → timeout_slot_ok (timeout_step w op).
Proof.
  intros Hok. destruct op as [s|s|]; simpl.
  - destruct (msg_to (thing w)) as [h|] eqn:Hslot.
    + by rewrite device_msg_timeout_create_occupied by by rewrite Hslot.
    + unfold timeout_slot_ok in Hok. rewrite Hslot in Hok.
      destruct (device_msg_timeout_create_empty s w Hslot Hok)
        as (h & Hh & Ht).
      unfold timeout_slot_ok. rewrite Hh. eauto.
  - unfold device_msg_timeout_modify, l_timeout_modify, timeout_slot_ok in *.
    destruct (msg_to (thing w)) as [h|] eqn:Hslot; [|by rewrite Hslot].
    destruct Hok as [s0 Hs0].
    destruct (0 <? s mod 2 ^ 32); simpl; rewrite Hslot; [|eauto].
    rewrite Hs0, alter_singleton_eq. eauto.
  - destruct (device_msg_timeout_remove_empties w Hok) as [Hslot Hnone].
    unfold timeout_slot_ok. by rewrite Hslot.
Qed.

Lemma timeout_run_slot_ok (ops : list timeout_op) w :
  timeout_slot_ok w → timeout_slot_ok (timeout_run ops w).
Proof.
  revert w. induction ops as [|op ops IH]; intros w Hok; [done|].
  apply IH. by apply timeout_step_slot_ok.
Qed.

Lemma timeout_slot_ok_size w : timeout_slot_ok w → (size (timeouts w) ≤ 1)%nat.
Proof.
  unfold timeout_slot_ok. destruct (msg_to (thing w)).
  - intros [s0 ->]. by rewrite map_size_singleton.
  - intros ->. rewrite map_size_empty. lia.
Qed.

(** C7.  Starting from a world where the slot and the timers agree (as
    at start-up: slot empty, no timer):
    - [device_msg_timeout_create] on an occupied slot changes nothing,
      neither the slot nor any timer's delay;
    - after [device_msg_timeout_remove] the slot is empty and no timer
      is alive;
    - a create after a remove leaves exactly one timer, the one in the
      slot, set to the delay asked for;
    - through any run of create, modify and remove, the slot and the
      timers go on agreeing, so at most one timer is ever alive. *)
Theorem device_msg_timeout_single_slot w :
  timeout_slot_ok w →
  (∀ s, is_Some (msg_to (thing w)) → device_msg_timeout_create s w = w)
  ∧ (msg_to (thing (device_msg_timeout_remove w)) = None
     ∧ timeouts (device_msg_timeout_remove w) = ∅)
  ∧ (∀ s, ∃ h,
       msg_to (thing (device_msg_timeout_create s
                        (device_msg_timeout_remove w))) = Some h
       ∧ timeouts (device_msg_timeout_create s
                     (device_msg_timeout_remove w))
         = {[ h := s mod 2 ^ 32 ]})
  ∧ (∀ ops : list timeout_op,
       timeout_slot_ok (timeout_run ops w)
       ∧ (size (timeouts (timeout_run ops w)) ≤ 1)%nat).
Proof.
  intros Hok.
  destruct (device_msg_timeout_remove_empties w Hok) as [Hslot Hnone].
  split; [intros s; apply device_msg_timeout_create_occupied|].
  split; [done|]. split.
  - intros s. by apply device_msg_timeout_create_empty.
  - intros ops. pose proof (timeout_run_slot_ok ops w Hok) as Hrun.
    split; [done|]. by apply timeout_slot_ok_size.
Qed.
End Timeout.

(** In the demo a timer of 5 seconds is in the slot; a create of 9 seconds
    changes nothing; after a remove, a create of 9 seconds installs one. *)
Lemma device_msg_timeout_single_slot_witness :
  let w := device_msg_timeout_create 5 (demo_world REGISTERING) in
  timeout_slot_ok w
  ∧ is_Some (msg_to (thing w))
  ∧ device_msg_timeout_create 9 w = w
  ∧ map_to_list (timeouts w) = [(0%nat, 5)]
  ∧ map_to_list
      (timeouts (device_msg_timeout_create 9 (device_msg_timeout_remove w)))
    = [(0%nat, 9)].
Proof.
  intros w.
  assert (Hok : timeout_slot_ok w).
  { unfold timeout_slot_ok. simpl. exists 5. reflexivity. }
  assert (Hslot : is_Some (msg_to (thing w))) by (eexists; reflexivity).
  destruct (device_msg_timeout_single_slot w Hok) as (Hcreate & _ & _ & _).
  split; [exact Hok|]. split; [exact Hslot|].
  split; [exact (Hcreate 9 Hslot)|].
  split; vm_compute; reflexivity.
Defined.

(** *** C strings *)

Section CStrings.
Implicit Types (buf dst src text : chars) (n : nat).

Lemma cstring_no_nul buf : no_nul (cstring buf).
Proof.
  induction buf as [|c buf IH]; simpl; [constructor|].
  destruct (is_nul c) eqn:Hc; by constructor.
Qed.

Lemma cstring_app s rest : no_nul s → cstring (s ++ rest) = s ++ cstring rest.
Proof.
  induction 1 as [|c s Hc Hs IH]; simpl; [done|]. by rewrite Hc, IH.
Qed.

Lemma cstring_nul_first buf : cstring (NUL :: buf) = [].
Proof. reflexivity. Qed.

Lemma strncpy_cstring dst src n :
  dst !! n = Some NUL →
  cstring (strncpy dst src n) = take n (cstring src).
Proof.
  intros Hterm. unfold strncpy.
  set (s := take n (cstring src)).
  assert (Hs : no_nul s) by (apply Forall_take, cstring_no_nul).
  assert (Hlen : (length s ≤ n)%nat) by (subst s; rewrite length_take; lia).
  rewrite cstring_app by done.
  destruct (decide (length s = n)) as [Heq|Hne].
  - rewrite Heq, Nat.sub_diag. simpl.
    rewrite (drop_S dst NUL n Hterm). simpl. by rewrite app_nil_r.
  - destruct (n - length s)%nat as [|k] eqn:Hk; [lia|].
    simpl. by rewrite app_nil_r.
Qed.

Lemma strncpy_terminator dst src n : strncpy dst src n !! n = dst !! n.
Proof.
  unfold strncpy. set (s := take n (cstring src)).
  assert (Hlen : (length s ≤ n)%nat) by (subst s; rewrite length_take; lia).
  rewrite app_assoc, lookup_app_r;
    rewrite length_app, length_replicate; [|lia].
  replace (n - (length s + (n - length s)))%nat with 0%nat by lia.
  rewrite lookup_drop. f_equal. lia.
Qed.

Lemma sprintf_cstring buf text : no_nul text → cstring (sprintf buf text) = text.
Proof.
  intros Ht. unfold sprintf. rewrite cstring_app by done.
  simpl. by rewrite app_nil_r.
Qed.
End CStrings.

(** *** Credentials *)

Section Credentials.
Context `{KT : KnotTypes} (E : collaborators).
Implicit Types (w : world) (t : knot_thing) (token : chars).

(** The functions that write the token leave its terminator alone. *)
Lemma device_set_thing_credentials_terminated t id token :
  token_terminated t →
  token_terminated (device_set_thing_credentials t id token).
Proof.
  unfold token_terminated, device_set_thing_credentials. simpl.
  by rewrite strncpy_terminator.
Qed.

Lemma device_clear_thing_token_terminated t :
  token_terminated t → token_terminated (device_clear_thing_token t).
Proof.
  unfold token_terminated, device_clear_thing_token, clear_first. simpl.
  intros Hterm. destruct KNOT_PROTOCOL_TOKEN_LEN as [|n].
  - apply list_lookup_insert_eq. by eapply lookup_lt_Some.
  - by rewrite list_lookup_insert_ne.
Qed.

(** C10.  [device_store_credentials_on_file] asks the credential file
    once.  When that fails it returns -1 and the thing in memory, token
    included, is as before.  When it succeeds it returns 0 and the token
    in memory is the stored token cut to [KNOT_PROTOCOL_TOKEN_LEN]
    characters.  (The token buffer ends with the terminator that no
    function of the file writes.) *)
Theorem device_store_credentials_on_file_atomic token w :
  token_terminated (thing w) →
  let path := thing_credentials_path (thing w) in
  let id := cstring (thing_id (thing w)) in
  let rc := properties_store_credentials E w path id (cstring token) in
  let r := device_store_credentials_on_file E token w in
  calls r.2 =
    calls w ++ [Call_properties_store_credentials path id (cstring token)]
  ∧ (rc < 0 → r.1 = -1 ∧ thing r.2 = thing w)
  ∧ (0 ≤ rc →
     r.1 = 0
     ∧ cstring (thing_token (thing r.2))
       = take KNOT_PROTOCOL_TOKEN_LEN (cstring token)
     ∧ token_terminated (thing r.2)
     ∧ thing r.2
       = set_thing_token
           (strncpy (thing_token (thing w)) token KNOT_PROTOCOL_TOKEN_LEN)
           (thing w)).
Proof.
  intros Hterm path id rc r. subst r.
  unfold device_store_credentials_on_file. fold path id rc.
  destruct (Z.ltb_spec rc 0) as [Hneg|Hpos]; simpl.
  - split; [done|]. split; [done|lia].
  - split; [done|]. split; [lia|]. intros _.
    split; [done|]. split; [by apply strncpy_cstring|].
    split; [|done].
    unfold token_terminated. simpl. by rewrite strncpy_terminator.
Qed.
End Credentials.

(** The demo keeps four characters of a token.  Storing "abcdefgh"
    succeeds and leaves "abcd" in memory; with no path to the file the
    store fails, and the token in memory is as before. *)
Lemma device_store_credentials_on_file_atomic_witness :
  let token := String.list_ascii_of_string "abcdefgh" in
  let ok := device_store_credentials_on_file demo_env token
              (demo_world REGISTERING) in
  let ko := device_store_credentials_on_file demo_env token
              demo_world_no_path in
  token_terminated (thing (demo_world REGISTERING))
  ∧ ok.1 = 0
  ∧ cstring (thing_token (thing ok.2)) = String.list_ascii_of_string "abcd"
  ∧ token_terminated (thing demo_world_no_path)
  ∧ ko.1 = -1
  ∧ thing ko.2 = thing demo_world_no_path.
Proof.
  intros token ok ko.
  assert (H1 : token_terminated (thing (demo_world REGISTERING)))
    by reflexivity.
  assert (H2 : token_terminated (thing demo_world_no_path)) by reflexivity.
  destruct (device_store_credentials_on_file_atomic demo_env token
              (demo_world REGISTERING) H1) as (_ & _ & Hok).
  destruct (device_store_credentials_on_file_atomic demo_env token
              demo_world_no_path H2) as (_ & Hko & _).
  destruct (Hok ltac:(vm_compute; discriminate)) as (Hr & Htok & _).
  destruct (Hko ltac:(vm_compute; reflexivity)) as (Hr' & Hthing).
  split; [exact H1|]. split; [exact Hr|].
  split; [etrans; [exact Htok|reflexivity]|].
  split; [exact H2|]. split; [exact Hr'|exact Hthing].
Defined.

(** *** The generated device id *)

Section Hex.
Implicit Types (n d : Z) (acc s : chars) (fuel : nat).

Local Ltac digit_cases d H :=
  assert (d = 0 ∨ d = 1 ∨ d = 2 ∨ d = 3 ∨ d = 4 ∨ d = 5 ∨ d = 6 ∨ d = 7
          ∨ d = 8 ∨ d = 9 ∨ d = 10 ∨ d = 11 ∨ d = 12 ∨ d = 13 ∨ d = 14
          ∨ d = 15) as H by lia;
  repeat (destruct H as [->|H]); try subst d.

Lemma hex_digit_lower d : 0 ≤ d < 16 → is_lower_hex (hex_digit d) = true.
Proof. intros Hd. digit_cases d Hc; reflexivity. Qed.

Lemma hex_digit_value_digit d :
  0 ≤ d < 16 → hex_digit_value (hex_digit d) = d.
Proof. intros Hd. digit_cases d Hc; reflexivity. Qed.

Lemma lower_hex_not_nul (c : ascii) : is_lower_hex c = true → is_nul c = false.
Proof.
  intros Hc. unfold is_nul. destruct (Ascii.eqb_spec c NUL) as [->|]; [|done].
  discriminate Hc.
Qed.

Lemma hex_digits_lower fuel n acc :
  0 ≤ n →
  Forall (λ c, is_lower_hex c = true) acc →
  Forall (λ c, is_lower_hex c = true) (hex_digits fuel n acc).
Proof.
  revert n acc. induction fuel as [|fuel IH]; intros n acc Hn Hacc; [done|].
  simpl.
  assert (Hd : is_lower_hex (hex_digit (n mod 16)) = true).
  { apply hex_digit_lower. apply Z.mod_pos_bound. lia. }
  destruct (n / 16 =? 0).
  - by constructor.
  - apply IH; [apply Z.div_pos; lia|by constructor].
Qed.

Lemma hex_value_fold s (v : Z) :
  fold_left (λ v c, 16 * v + hex_digit_value c) s v
  = v * 16 ^ Z.of_nat (length s) + hex_value s.
Proof.
  unfold hex_value. revert v.
  induction s as [|c s IH]; intros v; cbn [fold_left length].
  - simpl. lia.
  - rewrite (IH (16 * v + _)), (IH (16 * 0 + _)).
    rewrite Nat2Z.inj_succ, Z.pow_succ_r by lia. lia.
Qed.

Lemma hex_value_cons (c : ascii) s :
  hex_value (c :: s)
  = hex_digit_value c * 16 ^ Z.of_nat (length s) + hex_value s.
Proof.
  unfold hex_value at 1. cbn [fold_left]. rewrite hex_value_fold. lia.
Qed.

(** With enough fuel the digits denote the number: none is lost. *)
Lemma hex_digits_value fuel n acc :
  0 ≤ n < 16 ^ Z.of_nat fuel →
  hex_value (hex_digits fuel n acc)
  = n * 16 ^ Z.of_nat (length acc) + hex_value acc.
Proof.
  revert n acc. induction fuel as [|fuel IH]; intros n acc Hn.
  { simpl in Hn. assert (n = 0) as -> by lia. simpl. lia. }
  simpl hex_digits.
  assert (Hmod : 0 ≤ n mod 16 < 16) by (apply Z.mod_pos_bound; lia).
  pose proof (Z.div_mod n 16 ltac:(lia)) as Hdiv.
  destruct (Z.eqb_spec (n / 16) 0) as [Hz|Hnz].
  - rewrite hex_value_cons, hex_digit_value_digit by done.
    replace (n mod 16) with n by lia. done.
  - rewrite IH.
    + rewrite hex_value_cons, hex_digit_value_digit by done. simpl length.
      rewrite Nat2Z.inj_succ, Z.pow_succ_r by lia. lia.
    + rewrite Nat2Z.inj_succ, Z.pow_succ_r in Hn by lia.
      split; [apply Z.div_pos; lia|].
      apply Z.div_lt_upper_bound; lia.
Qed.

(** The number of digits: [k] with [16^(k-1) <= n < 16^k], one for 0. *)
Lemma hex_digits_length fuel n acc :
  (1 ≤ fuel)%nat →
  0 ≤ n < 16 ^ Z.of_nat fuel →
  ∃ k : nat,
    (1 ≤ k ≤ fuel)%nat
    ∧ length (hex_digits fuel n acc) = (length acc + k)%nat
    ∧ n < 16 ^ Z.of_nat k
    ∧ (k = 1%nat ∨ 16 ^ (Z.of_nat k - 1) ≤ n).
Proof.
  revert n acc. induction fuel as [|fuel IH]; intros n acc Hf Hn; [lia|].
  simpl hex_digits.
  pose proof (Z.div_mod n 16 ltac:(lia)) as Hdiv.
  assert (Hmod : 0 ≤ n mod 16 < 16) by (apply Z.mod_pos_bound; lia).
  destruct (Z.eqb_spec (n / 16) 0) as [Hz|Hnz].
  - exists 1%nat. simpl. repeat split; lia.
  - assert (Hq : 0 < n / 16).
    { pose proof (Z.div_pos n 16 ltac:(lia) ltac:(lia)). lia. }
    rewrite Nat2Z.inj_succ, Z.pow_succ_r in Hn by lia.
    assert (Hfuel : (1 ≤ fuel)%nat).
    { destruct fuel; [|lia]. simpl in Hn. lia. }
    destruct (IH (n / 16) (hex_digit (n mod 16) :: acc) Hfuel) as
      (k & Hk & Hlen & Hlt & Hge).
    { split; [lia|]. apply Z.div_lt_upper_bound; lia. }
    exists (S k). rewrite Hlen. simpl length.
    rewrite Nat2Z.inj_succ, Z.pow_succ_r by lia.
    replace (Z.succ (Z.of_nat k) - 1) with (Z.of_nat k) by lia.
    repeat split; try lia. right.
    destruct Hge as [->|Hge]; [simpl; lia|].
    replace (Z.of_nat k) with (Z.succ (Z.of_nat k - 1)) by lia.
    rewrite Z.pow_succ_r by lia. lia.
Qed.

(** ["%" PRIx64]: between one and sixteen lowercase hexadecimal digits
    that denote the number; sixteen exactly when the top nibble of the
    64-bit value is not zero. *)
Lemma format_PRIx64_spec n :
  let s := format_PRIx64 n in
  (1 ≤ length s ≤ 16)%nat
  ∧ Forall (λ c, is_lower_hex c = true) s
  ∧ hex_value s = n mod 2 ^ 64
  ∧ (length s = 16%nat ↔ 2 ^ 60 ≤ n mod 2 ^ 64).
Proof.
  intros s. subst s. unfold format_PRIx64.
  assert (Hn : 0 ≤ n mod 2 ^ 64 < 16 ^ Z.of_nat 16).
  { change (16 ^ Z.of_nat 16) with (2 ^ 64). apply Z.mod_pos_bound. lia. }
  destruct (hex_digits_length 16 (n mod 2 ^ 64) [] ltac:(lia) Hn)
    as (k & Hk & Hlen & Hlt & Hge).
  change (length [] + k)%nat with k in Hlen.
  rewrite Hlen. split; [lia|].
  split; [apply hex_digits_lower; [lia|constructor]|].
  split.
  { rewrite hex_digits_value by done. simpl. unfold hex_value. simpl. lia. }
  split.
  - intros ->. destruct Hge as [Hk1|Hge]; [lia|].
    change (16 ^ (Z.of_nat 16 - 1)) with (2 ^ 60) in Hge. lia.
  - intros Hbig. destruct (decide (k = 16%nat)) as [|Hne]; [done|].
    assert (Hpow : 16 ^ Z.of_nat k ≤ 16 ^ 15)
      by (apply Z.pow_le_mono_r; lia).
    change (16 ^ 15) with (2 ^ 60) in Hpow. lia.
Qed.
End Hex.

Section Identity.
Context `{KT : KnotTypes} (E : collaborators).
Implicit Types (w : world).

(** The id left in the thing is the hexadecimal text of the draw. *)
Lemma device_generate_thing_id_string w :
  device_get_id (device_generate_thing_id E w)
  = format_PRIx64 (l_getrandom E w mod 2 ^ 64).
Proof.
  unfold device_get_id, device_generate_thing_id. simpl.
  apply sprintf_cstring.
  destruct (format_PRIx64_spec (l_getrandom E w mod 2 ^ 64)) as (_ & Hhex & _).
  eapply Forall_impl; [exact Hhex|]. apply lower_hex_not_nul.
Qed.

(** X21.  The id is never empty and never longer than the declared width,
    it is made of lowercase hexadecimal digits, and it has the declared
    width exactly when the draw is [2^60] or more. *)
Lemma device_generate_thing_id_width w :
  let id := device_get_id (device_generate_thing_id E w) in
  (1 ≤ length id ≤ KNOT_PROTOCOL_UUID_LEN)%nat
  ∧ Forall (λ c, is_lower_hex c = true) id
  ∧ (length id = KNOT_PROTOCOL_UUID_LEN ↔ 2 ^ 60 ≤ l_getrandom E w mod 2 ^ 64).
Proof.
  intros id. subst id. rewrite device_generate_thing_id_string.
  destruct (format_PRIx64_spec (l_getrandom E w mod 2 ^ 64))
    as (Hlen & Hhex & _ & Hfull).
  rewrite Z.mod_mod in Hfull by lia. done.
Qed.

(** C2, at a draw the code does not handle as the claim says.  With the
    random value [0x0123456789abcdef] the id written is
    [123456789abcdef]: fifteen characters, the leading zero is not
    printed. *)
Theorem device_generate_thing_id_drops_leading_zero w :
  l_getrandom E w = 0x0123456789abcdef →
  device_get_id (device_generate_thing_id E w)
  = String.list_ascii_of_string "123456789abcdef"
  ∧ length (device_get_id (device_generate_thing_id E w)) = 15%nat
  ∧ length (device_get_id (device_generate_thing_id E w))
    ≠ KNOT_PROTOCOL_UUID_LEN.
Proof.
  intros Hdraw. rewrite device_generate_thing_id_string, Hdraw.
  split; [reflexivity|]. split; [reflexivity|]. by vm_compute.
Qed.
End Identity.

Lemma device_generate_thing_id_drops_leading_zero_witness :
  l_getrandom demo_env (demo_world REGISTERING) = 0x0123456789abcdef
  ∧ length (device_get_id
              (device_generate_thing_id demo_env (demo_world REGISTERING)))
    = 15%nat.
Proof.
  split; [reflexivity|].
  apply (device_generate_thing_id_drops_leading_zero demo_env
           (demo_world REGISTERING) eq_refl).
Defined.

(** The text of a few draws. *)
Example format_PRIx64_examples :
  format_PRIx64 0 = String.list_ascii_of_string "0"
  ∧ format_PRIx64 255 = String.list_ascii_of_string "ff"
  ∧ format_PRIx64 (2 ^ 60) = String.list_ascii_of_string "1000000000000000"
  ∧ format_PRIx64 (2 ^ 64 - 1) = String.list_ascii_of_string "ffffffffffffffff".
Proof. repeat split; reflexivity. Qed.

(** *** More on the registry *)

Section RegistryMore.
Context `{KT : KnotTypes} (E : collaborators).
Implicit Types (h : l_hashmap knot_data_item) (w : world)
  (d : knot_data_item) (t : knot_thing).

Lemma l_hashmap_store_keys h k d :
  map fst (l_hashmap_store h k d) = map fst h.
Proof.
  induction h as [|[k0 d0] h IH]; simpl; [done|].
  destruct (decide (k0 = k)); simpl; [done|by rewrite IH].
Qed.

Lemma l_hashmap_lookup_elem h k d :
  l_hashmap_lookup h k = Some d → (k, d) ∈ h.
Proof.
  induction h as [|[k0 d0] h IH]; simpl; [done|].
  destruct (decide (k0 = k)) as [->|Hne].
  - intros [= ->]. left.
  - intros Hl. right. by apply IH.
Qed.

Lemma l_hashmap_lookup_nodup h k d :
  NoDup (map fst h) → (k, d) ∈ h → l_hashmap_lookup h k = Some d.
Proof.
  induction h as [|[k0 d0] h IH]; simpl; intros Hnd Hin.
  - by apply elem_of_nil in Hin.
  - apply NoDup_cons in Hnd as [Hk0 Hnd].
    apply elem_of_cons in Hin as [[= -> ->]|Hin].
    + by destruct (decide (k0 = k0)).
    + destruct (decide (k0 = k)) as [->|Hne]; [|by apply IH].
      exfalso. apply Hk0. apply list_elem_of_fmap. by exists (k, d).
Qed.

Lemma registry_keyed_lookup h k d :
  registry_keyed h → l_hashmap_lookup h k = Some d → sensor_id d = k.
Proof.
  intros Hkeyed Hl. apply l_hashmap_lookup_elem in Hl.
  unfold registry_keyed in Hkeyed. rewrite Forall_forall in Hkeyed.
  exact (Hkeyed _ Hl).
Qed.

Lemma registry_keyed_store h k d :
  registry_keyed h → sensor_id d = k → registry_keyed (l_hashmap_store h k d).
Proof.
  intros Hkeyed Hd. induction Hkeyed as [|[k0 d0] h Hk0 Hh IH]; simpl.
  - constructor.
  - destruct (decide (k0 = k)) as [->|Hne]; constructor; done.
Qed.

Lemma data_items_declare_all (decls : list declaration) t :
  data_items (declare_all decls t)
  = data_items t ++ map (λ decl, (declared_id decl, declared_item decl)) decls.
Proof.
  revert t. induction decls as [|decl decls IH]; intros t; simpl.
  - by rewrite app_nil_r.
  - unfold declare_all in *. simpl. rewrite IH.
    destruct decl as [[[[id sch] cfg] reg] bit]. simpl.
    unfold l_hashmap_insert. by rewrite <- app_assoc.
Qed.

Lemma l_hashmap_lookup_declarations (decls : list declaration) id :
  l_hashmap_lookup
    (map (λ decl, (declared_id decl, declared_item decl)) decls) id
  = declared_item <$> head (filter (λ decl, declared_id decl = id) decls).
Proof.
  induction decls as [|decl decls IH]; simpl; [done|].
  rewrite filter_cons.
  destruct (decide (declared_id decl = id)) as [Heq|Hne]; simpl; done.
Qed.

(** X1.  After the loader has declared a list of sensors, in that order,
    an id is found exactly when the registry held it before or one of
    the declarations carries it, and what is found is the entry the
    registry held, else the first declaration of that id, with zeroed
    values: of several declarations of one id the first one stands. *)
Theorem declare_all_lookup_first (decls : list declaration) t (id : Z) :
  device_data_item_lookup (declare_all decls t) id
  = match device_data_item_lookup t id with
    | Some d => Some d
    | None =>
        declared_item <$> head (filter (λ decl, declared_id decl = id) decls)
    end.
Proof.
  unfold device_data_item_lookup.
  rewrite data_items_declare_all, l_hashmap_lookup_app.
  destruct (l_hashmap_lookup (data_items t) id); [done|].
  apply l_hashmap_lookup_declarations.
Qed.

(** X2.  Declarations file every sensor under the id it carries: a
    registry that is so keyed stays so keyed through any list of
    declarations, and the number of entries grows by one for each
    declaration, duplicates included. *)
Theorem declare_all_keyed (decls : list declaration) t :
  registry_keyed (data_items t) →
  registry_keyed (data_items (declare_all decls t))
  ∧ length (data_items (declare_all decls t))
    = (length (data_items t) + length decls)%nat.
Proof.
  intros Hkeyed. rewrite data_items_declare_all. split.
  - apply Forall_app. split; [done|].
    apply Forall_fmap, Forall_forall. intros decl _. simpl.
    by destruct decl as [[[[id sch] cfg] reg] bit].
  - by rewrite length_app, length_map.
Qed.

(** X3.  In a keyed registry, the publication made for a sensor id is
    labelled with that very id and carries the current value of the item
    found under it. *)
Theorem on_publish_data_labelled (k : Z) w d :
  registry_keyed (data_items (thing w)) →
  item_of w k = Some d →
  publications (on_publish_data E k w) = publications w ++ [(k, current_val d)]
  ∧ thing (on_publish_data E k w) = thing w.
Proof.
  intros Hkeyed Hd.
  destruct (on_publish_data_present E k w d Hd) as [Hp Ht].
  split; [|done]. rewrite Hp.
  by rewrite (registry_keyed_lookup _ k d Hkeyed Hd).
Qed.

(** X4.  A tick writes nothing but the two values of its own sensor.  In
    the world it ends in, or hands to the state machine along with
    PUB_DATA, the registry has the same ids in the same order, every
    other sensor's item is as before, the item of the sensor itself has
    kept its id, config, schema and Modbus source, a keyed registry is
    still keyed, and the identity, the timer slot, the timers and the
    connection mask are untouched. *)
Theorem on_modbus_poll_receive_frame (id : Z) w :
  ∃ w',
    ((on_modbus_poll_receive E id w).2 = w'
     ∨ (on_modbus_poll_receive E id w).2
       = sm_input_event E (EVT_PUB_DATA [id]) w')
    ∧ map fst (data_items (thing w')) = map fst (data_items (thing w))
    ∧ (∀ id', id ≠ id' → item_of w' id' = item_of w id')
    ∧ (∀ d, item_of w id = Some d →
            ∃ d', item_of w' id = Some d'
                  ∧ sensor_id d' = sensor_id d ∧ config d' = config d
                  ∧ schema d' = schema d ∧ modbus_src d' = modbus_src d)
    ∧ (registry_keyed (data_items (thing w)) →
       registry_keyed (data_items (thing w')))
    ∧ thing_id (thing w') = thing_id (thing w)
    ∧ thing_token (thing w') = thing_token (thing w)
    ∧ msg_to (thing w') = msg_to (thing w)
    ∧ timeouts w' = timeouts w
    ∧ conn_mask w' = conn_mask w.
Proof.
  destruct (item_of w id) as [d|] eqn:Hd.
  - rewrite (on_modbus_poll_receive_present E id w d Hd). simpl.
    set (d1 := tick_item E d w).
    set (d2 := set_sent_val (current_val d1) d1).
    assert (Hd1 : sensor_id d1 = sensor_id d ∧ config d1 = config d
                  ∧ schema d1 = schema d ∧ modbus_src d1 = modbus_src d).
    { subst d1. unfold tick_item. by destruct (tick_reply E d w).2. }
    destruct Hd1 as (Hs1 & Hc1 & Hsch1 & Hm1).
    assert (Hw2 : item_of (tick_checked E id d w) id = Some d1)
      by by apply item_of_tick_checked.
    assert (Hkey : registry_keyed (data_items (thing w)) → sensor_id d1 = id).
    { intros Hk. rewrite Hs1. by apply (registry_keyed_lookup _ id d Hk). }
    destruct (0 <? tick_check E id d w).
    + exists (store_item id d2 (tick_checked E id d w)).
      split; [by right|]. split.
      { simpl. by rewrite !l_hashmap_store_keys. }
      split.
      { intros id' Hne. rewrite item_of_store_item_ne by done.
        unfold tick_checked, tick_read.
        change (item_of (store_item id d1 w) id' = item_of w id').
        by apply item_of_store_item_ne. }
      split.
      { intros d0 [= <-]. exists d2. split.
        - apply item_of_store_item. by rewrite Hw2.
        - by subst d2. }
      split; [|done].
      intros Hk. simpl. apply registry_keyed_store; [|by apply Hkey].
      apply registry_keyed_store; [done|by apply Hkey].
    + exists (tick_checked E id d w).
      split; [by left|]. split.
      { simpl. by rewrite l_hashmap_store_keys. }
      split.
      { intros id' Hne. unfold tick_checked, tick_read.
        change (item_of (store_item id d1 w) id' = item_of w id').
        by apply item_of_store_item_ne. }
      split.
      { intros d0 [= <-]. by exists d1. }
      split; [|done].
      intros Hk. simpl. apply registry_keyed_store; [done|by apply Hkey].
  - exists w. unfold on_modbus_poll_receive. rewrite Hd.
    split; [by left|]. repeat split; try done.
Qed.
End RegistryMore.

(** One declaration of sensor 4 after the three of the demo: sensor 2 is
    found as before. *)
Lemma device_set_new_data_item_other_witness :
  (4 : Z) ≠ 2
  ∧ device_data_item_lookup
      (device_set_new_data_item demo_thing 4 40 0 400 2) 2
    = device_data_item_lookup demo_thing 2.
Proof.
  split; [discriminate|].
  apply (@device_set_new_data_item_other demo_types demo_thing 4 2 40 0 400 2).
  discriminate.
Defined.

(** The registry of the demo, declared from an empty one, is keyed. *)
Lemma declare_all_keyed_witness :
  registry_keyed (data_items demo_thing0)
  ∧ registry_keyed (data_items (declare_all demo_declarations demo_thing0))
  ∧ length (data_items (declare_all demo_declarations demo_thing0)) = 2%nat.
Proof.
  assert (H0 : registry_keyed (data_items demo_thing0)) by constructor.
  split; [exact H0|].
  exact (@declare_all_keyed demo_types demo_declarations demo_thing0 H0).
Defined.

(** Sensor 3 of the demo, published on request. *)
Lemma on_publish_data_labelled_witness :
  registry_keyed (data_items (thing (demo_world ONLINE)))
  ∧ (∃ d, item_of (demo_world ONLINE) 3 = Some d)
  ∧ publications (on_publish_data demo_env 3 (demo_world ONLINE)) = [(3, 0)].
Proof.
  assert (Hk : registry_keyed (data_items (thing (demo_world ONLINE)))).
  { repeat constructor. }
  split; [exact Hk|]. split; [eexists; reflexivity|].
  destruct (on_publish_data_labelled demo_env 3 (demo_world ONLINE) _ Hk
              eq_refl) as [Hp _].
  rewrite Hp. reflexivity.
Defined.

(** Two declarations of sensor 1: the first one is the one found. *)
Example declare_all_lookup_first_example :
  schema <$> device_data_item_lookup
               (declare_all demo_declarations demo_thing0) 1
  = Some 10.
Proof. reflexivity. Qed.

(** *** The snapshot of all sensors *)

Section Snapshot.
Context `{KT : KnotTypes} (E : collaborators).
Variable order : l_hashmap knot_data_item → l_hashmap knot_data_item.
Implicit Types (w : world) (visit : l_hashmap knot_data_item).

Lemma omap_due_entries_same_thing w w1 visit :
  thing w1 = thing w →
  omap (λ kv, due_publication w1 (sensor_id kv.2)) visit
  = omap (λ kv, due_publication w (sensor_id kv.2)) visit.
Proof.
  intros Ht. induction visit as [|[k d] visit IH]; simpl; [done|].
  rewrite (due_publication_same_thing w w1 (sensor_id d) Ht).
  destruct (due_publication w (sensor_id d)); [f_equal|]; exact IH.
Qed.

(** Publishing for the entries of [visit], one after the other. *)
Lemma publish_entries_publications visit w :
  let w' :=
    fold_left (λ a kv, foreach_publish_all_data E kv.1 kv.2 a) visit w in
  thing w' = thing w
  ∧ publications w'
    = publications w
      ++ omap (λ kv, due_publication w (sensor_id kv.2)) visit.
Proof.
  revert w. induction visit as [|[k d] visit IH]; intros w w'; subst w'.
  - simpl. by rewrite app_nil_r.
  - cbn [fold_left].
    change (foreach_publish_all_data E (k, d).1 (k, d).2 w)
      with (on_publish_data E (sensor_id d) w).
    destruct (on_publish_data_step E (sensor_id d) w) as (Ht1 & Hp1 & _).
    destruct (IH (on_publish_data E (sensor_id d) w)) as (Ht & Hp).
    split; [congruence|].
    rewrite Hp, Hp1, (omap_due_entries_same_thing w _ visit Ht1), <- app_assoc.
    f_equal. simpl. by destruct (due_publication w (sensor_id d)).
Qed.

Lemma due_publication_entries w visit :
  registry_keyed (data_items (thing w)) →
  NoDup (map fst (data_items (thing w))) →
  visit ⊆ data_items (thing w) →
  omap (λ kv, due_publication w (sensor_id kv.2)) visit
  = map (λ kv, (kv.1, current_val kv.2)) visit.
Proof.
  intros Hkeyed Hnd Hsub. induction visit as [|[k d] visit IH]; [done|].
  assert (Hin : (k, d) ∈ data_items (thing w)) by (apply Hsub; left).
  assert (Hd : item_of w k = Some d) by by apply l_hashmap_lookup_nodup.
  assert (Hk : sensor_id d = k).
  { unfold registry_keyed in Hkeyed. rewrite Forall_forall in Hkeyed.
    exact (Hkeyed _ Hin). }
  simpl. rewrite Hk. unfold due_publication at 1. rewrite Hd. simpl.
  rewrite Hk. f_equal. apply IH. intros x Hx. apply Hsub. by right.
Qed.

(** X5.  [device_publish_data_all], on a keyed registry without duplicate
    ids, sends the cloud exactly one publication for each sensor of the
    registry, carrying its id and its current value, in the order the
    hashmap is visited, and writes nothing in the thing; an empty registry
    gives no publication. *)
Theorem device_publish_data_all_once_each w :
  (∀ h, order h ≡ₚ h) →
  registry_keyed (data_items (thing w)) →
  NoDup (map fst (data_items (thing w))) →
  let w' := device_publish_data_all E order w in
  thing w' = thing w
  ∧ ∃ pubs,
      publications w' = publications w ++ pubs
      ∧ pubs ≡ₚ map (λ kv, (kv.1, current_val kv.2)) (data_items (thing w))
      ∧ (data_items (thing w) = [] → pubs = []).
Proof.
  intros Hperm Hkeyed Hnd w'. subst w'.
  unfold device_publish_data_all, l_hashmap_foreach.
  destruct (publish_entries_publications (order (data_items (thing w))) w)
    as [Ht Hp].
  split; [exact Ht|].
  eexists. split; [exact Hp|].
  rewrite due_publication_entries; try done.
  - split; [by rewrite Hperm|].
    intros Hnil. rewrite Hnil.
    pose proof (Hperm []) as Hnone. apply Permutation_nil_r in Hnone.
    by rewrite Hnone.
  - intros x Hx. by rewrite <- (Hperm (data_items (thing w))).
Qed.
End Snapshot.

(** The snapshot of the demo: sensors 1, 2 and 3, once each. *)
Lemma device_publish_data_all_once_each_witness :
  (∀ h, demo_order h ≡ₚ h)
  ∧ registry_keyed (data_items (thing (demo_world ONLINE)))
  ∧ NoDup (map fst (data_items (thing (demo_world ONLINE))))
  ∧ ∃ pubs,
      publications
        (device_publish_data_all demo_env demo_order (demo_world ONLINE))
      = publications (demo_world ONLINE) ++ pubs
      ∧ pubs ≡ₚ [(1, 0); (2, 0); (3, 0)].
Proof.
  assert (Ho : ∀ h, demo_order h ≡ₚ h) by done.
  assert (Hk : registry_keyed (data_items (thing (demo_world ONLINE))))
    by repeat constructor.
  assert (Hn : NoDup (map fst (data_items (thing (demo_world ONLINE))))).
  { change (NoDup [1; 2; 3]).
    repeat (apply NoDup_cons; split;
            [rewrite ?elem_of_cons, elem_of_nil; intros Hin;
             repeat (destruct Hin as [Hin|Hin]; try discriminate Hin);
             exact Hin|]).
    apply NoDup_nil_2. }
  split; [exact Ho|]. split; [exact Hk|]. split; [exact Hn|].
  destruct (device_publish_data_all_once_each demo_env demo_order
              (demo_world ONLINE) Ho Hk Hn) as (_ & pubs & Hp & Hperm & _).
  exists pubs. split; [exact Hp|exact Hperm].
Defined.

(** *** The connectivity tracker over a history of notifications *)

Section LinkHistory.
Context `{KT : KnotTypes} (E : collaborators).
Implicit Types (w : world) (c : CONN_TYPE) (a b up : bool).

Lemma set_conn_bitmask_mask_of c up a b :
  set_conn_bitmask up (mask_of a b) (conn_bits c) mod 256
  = mask_of (if same_conn c MODBUS then up else a)
      (if same_conn c CLOUD then up else b).
Proof. by destruct c, up, a, b. Qed.

Lemma mask_of_connected a b : (mask_of a b =? CONNECTED_MASK) = a && b.
Proof. by destruct a, b. Qed.

Lemma conn_handler_tracked c up a b w :
  conn_mask w = mask_of a b →
  let a' := if same_conn c MODBUS then up else a in
  let b' := if same_conn c CLOUD then up else b in
  conn_handler E c up w
  = sm_input_event E (if a' && b' then EVT_READY else EVT_NOT_READY)
      (set_conn_mask (mask_of a' b') w).
Proof.
  intros Hmask a' b'. unfold conn_handler.
  rewrite Hmask, set_conn_bitmask_mask_of, mask_of_connected.
  fold a' b'. by destruct (a' && b').
Qed.

(** X6.  With the mask standing for the links that are up, a
    notification sets or clears the bits of its own link only, and READY
    is raised exactly when both links are up afterwards, NOT_READY
    otherwise.  The Modbus handlers start or stop the poller first, the
    cloud handlers leave the poller alone. *)
Theorem link_step_raises_ready_iff_both_up c up a b w :
  conn_mask w = mask_of a b →
  let a' := if same_conn c MODBUS then up else a in
  let b' := if same_conn c CLOUD then up else b in
  link_step E w (Link c up)
  = sm_input_event E (if a' && b' then EVT_READY else EVT_NOT_READY)
      (set_conn_mask (mask_of a' b')
         match c with
         | MODBUS => if up then poll_start w else poll_stop w
         | CLOUD => w
         end).
Proof.
  intros Hmask a' b'. unfold link_step.
  destruct c, up; simpl;
    unfold on_modbus_connected, on_modbus_disconnected, on_cloud_connected,
      on_cloud_disconnected;
    by rewrite (conn_handler_tracked _ _ a b).
Qed.

(** X7.  As long as the state machine leaves [conn_mask] alone (it is a
    static local of [conn_handler]), after any history of notifications
    the mask stands for the links whose last notification was "up": a
    repeated notification changes nothing, each link is tracked on its
    own, and the mask is full exactly when both links are up. *)
Theorem link_run_tracks_links (evs : list link_event) a b w :
  (∀ e w0, conn_mask (sm_handler E e w0) = conn_mask w0) →
  conn_mask w = mask_of a b →
  let a' := link_up_after MODBUS evs a in
  let b' := link_up_after CLOUD evs b in
  conn_mask (link_run E evs w) = mask_of a' b'
  ∧ (conn_mask (link_run E evs w) = CONNECTED_MASK ↔ a' = true ∧ b' = true).
Proof.
  intros Hsm Hmask a' b'.
  assert (Hrun : conn_mask (link_run E evs w) = mask_of a' b').
  { subst a' b'. revert a b w Hmask.
    induction evs as [|[c up] evs IH]; intros a b w Hmask; [done|].
    unfold link_run, link_up_after in *. cbn [fold_left].
    apply IH.
    assert (Hstep : ∀ w1, conn_mask w1 = mask_of a b →
              conn_mask (conn_handler E c up w1)
              = mask_of (if same_conn c MODBUS then up else a)
                  (if same_conn c CLOUD then up else b)).
    { intros w1 H1. rewrite (conn_handler_tracked c up a b w1 H1).
      unfold sm_input_event. by rewrite Hsm. }
    destruct c, up; simpl; apply Hstep; done. }
  split; [exact Hrun|]. rewrite Hrun.
  pose proof (mask_of_connected a' b') as Hc.
  destruct a', b'; simpl in *; split; try done; intros [? ?]; done.
Qed.

Lemma conn_mask_device_publish_data_list (l : l_queue) w :
  conn_mask (device_publish_data_list E l w) = conn_mask w.
Proof.
  revert w. induction l as [|k l IH]; intros w; [done|].
  unfold device_publish_data_list in *. simpl. rewrite IH.
  unfold on_publish_data. destruct (item_of w k); [|done].
  by match goal with |- context [if ?c then _ else _] => destruct c end.
Qed.
End LinkHistory.

(** In the demo both links are up; the cloud drops: NOT_READY. *)
Lemma link_step_raises_ready_iff_both_up_witness :
  conn_mask (demo_world ONLINE) = mask_of true true
  ∧ link_step demo_env (demo_world ONLINE) (Link CLOUD false)
    = sm_input_event demo_env EVT_NOT_READY
        (set_conn_mask 0x0F (demo_world ONLINE)).
Proof.
  split; [reflexivity|].
  apply (link_step_raises_ready_iff_both_up demo_env CLOUD false true true
           (demo_world ONLINE) eq_refl).
Defined.

(** From both links up: the cloud drops twice, Modbus drops, the cloud
    comes back.  The cloud is up, Modbus is down, the mask is [0xF0]. *)
Lemma link_run_tracks_links_witness :
  (∀ e w0, conn_mask (sm_handler demo_env e w0) = conn_mask w0)
  ∧ conn_mask (demo_world ONLINE) = mask_of true true
  ∧ conn_mask
      (link_run demo_env
         [Link CLOUD false; Link CLOUD false; Link MODBUS false;
          Link CLOUD true]
         (demo_world ONLINE))
    = 0xF0.
Proof.
  assert (Hsm : ∀ e w0, conn_mask (sm_handler demo_env e w0) = conn_mask w0).
  { intros e w0. simpl. unfold sm_rows. destruct e; try done.
    - unfold device_msg_timeout_remove, l_timeout_remove.
      by destruct (msg_to (thing w0)).
    - destruct (sm w0); try done. apply conn_mask_device_publish_data_list. }
  split; [exact Hsm|]. split; [reflexivity|].
  destruct (link_run_tracks_links demo_env
              [Link CLOUD false; Link CLOUD false; Link MODBUS false;
               Link CLOUD true]
              true true (demo_world ONLINE) Hsm eq_refl) as [Hmask _].
  exact Hmask.
Defined.

(** *** The identity buffers *)

Section IdentityMore.
Context `{KT : KnotTypes} (E : collaborators).
Implicit Types (w : world) (t : knot_thing) (dst src buf text : chars)
  (n : nat).

Lemma length_strncpy dst src n :
  (n ≤ length dst)%nat → length (strncpy dst src n) = length dst.
Proof.
  intros Hn. unfold strncpy. set (s := take n (cstring src)).
  assert (Hlen : (length s ≤ n)%nat) by (subst s; rewrite length_take; lia).
  rewrite !length_app, length_replicate, length_drop. lia.
Qed.

Lemma length_sprintf buf text :
  (S (length text) ≤ length buf)%nat → length (sprintf buf text) = length buf.
Proof.
  intros Hn. unfold sprintf. rewrite length_app. simpl.
  rewrite length_drop. lia.
Qed.

Lemma sprintf_terminator buf text n :
  (length text ≤ n)%nat → buf !! n = Some NUL → sprintf buf text !! n = Some NUL.
Proof.
  intros Hn Hterm. unfold sprintf. rewrite lookup_app_r by done.
  destruct (n - length text)%nat as [|k] eqn:Hk; [done|].
  simpl. rewrite lookup_drop. rewrite <- Hterm. f_equal. lia.
Qed.

Lemma head_strncpy dst src n :
  (0 < n)%nat →
  head (strncpy dst src n) = Some (default NUL (head (cstring src))).
Proof.
  intros Hn. unfold strncpy. destruct n as [|n]; [lia|].
  destruct (cstring src) as [|c s]; simpl; done.
Qed.

Lemma device_has_thing_token_head w :
  device_has_thing_token w
  = negb (is_nul (default NUL (head (thing_token (thing w))))).
Proof.
  unfold device_has_thing_token. by destruct (thing_token (thing w)).
Qed.

Lemma head_cstring_not_nul src :
  negb (is_nul (default NUL (head (cstring src)))) = true ↔ cstring src ≠ [].
Proof.
  pose proof (cstring_no_nul src) as Hs.
  destruct (cstring src) as [|c s]; simpl.
  - split; [discriminate|done].
  - apply Forall_cons in Hs as [Hc _]. rewrite Hc. split; done.
Qed.

(** X8.  What [device_set_thing_credentials] writes is what is read back:
    the id is the given id cut to [KNOT_PROTOCOL_UUID_LEN] characters and
    the token the given token cut to [KNOT_PROTOCOL_TOKEN_LEN], with
    nothing left of what the buffers held before, however long it was. *)
Theorem device_set_thing_credentials_read_back t (id token : chars) :
  id_terminated t →
  token_terminated t →
  let t' := device_set_thing_credentials t id token in
  cstring (thing_id t') = take KNOT_PROTOCOL_UUID_LEN (cstring id)
  ∧ cstring (thing_token t') = take KNOT_PROTOCOL_TOKEN_LEN (cstring token)
  ∧ data_items t' = data_items t
  ∧ msg_to t' = msg_to t.
Proof.
  intros Hid Htok t'. subst t'. unfold device_set_thing_credentials. simpl.
  split; [by apply strncpy_cstring|]. split; [by apply strncpy_cstring|done].
Qed.

(** X9.  No writer of the identity runs over a buffer: with the id in its
    [KNOT_PROTOCOL_UUID_LEN + 1] bytes and the token in its
    [KNOT_PROTOCOL_TOKEN_LEN + 1] bytes, both ending with a terminator,
    setting the credentials, clearing the id, clearing the token,
    generating an id and storing the credentials all leave the two
    buffers with their sizes and their terminators. *)
Theorem identity_writers_keep_buffers w (id token : chars) :
  buffers_ok (thing w) →
  buffers_ok (device_set_thing_credentials (thing w) id token)
  ∧ buffers_ok (device_clear_thing_id (thing w))
  ∧ buffers_ok (device_clear_thing_token (thing w))
  ∧ buffers_ok (thing (device_generate_thing_id E w))
  ∧ buffers_ok (thing (device_store_credentials_on_file E token w).2).
Proof.
  intros (Hlid & Hltok & Hid & Htok).
  unfold buffers_ok, id_terminated in *.
  assert (Hset : ∀ tok,
    length (strncpy (thing_token (thing w)) tok KNOT_PROTOCOL_TOKEN_LEN)
    = S KNOT_PROTOCOL_TOKEN_LEN
    ∧ strncpy (thing_token (thing w)) tok KNOT_PROTOCOL_TOKEN_LEN
        !! KNOT_PROTOCOL_TOKEN_LEN = Some NUL).
  { intros tok. by rewrite length_strncpy, strncpy_terminator by lia. }
  split; [|split; [|split; [|split]]].
  - unfold device_set_thing_credentials. simpl.
    rewrite length_strncpy, strncpy_terminator by lia.
    destruct (Hset token) as [? ?]. done.
  - unfold device_clear_thing_id, clear_first. simpl.
    rewrite length_insert. repeat split; try done.
    by rewrite list_lookup_insert_ne.
  - unfold device_clear_thing_token, clear_first. simpl.
    rewrite length_insert. repeat split; try done.
    destruct KNOT_PROTOCOL_TOKEN_LEN as [|n].
    + apply list_lookup_insert_eq. rewrite Hltok. lia.
    + by rewrite list_lookup_insert_ne.
  - unfold device_generate_thing_id. simpl.
    destruct (format_PRIx64_spec (l_getrandom E w mod 2 ^ 64))
      as ((_ & Hlen) & _).
    rewrite length_sprintf by (rewrite Hlid; unfold KNOT_PROTOCOL_UUID_LEN; lia).
    repeat split; try done. by apply sprintf_terminator.
  - unfold device_store_credentials_on_file.
    match goal with |- context [if ?c then _ else _] => destruct c end; simpl.
    + done.
    + destruct (Hset token) as [? ?]. done.
Qed.

(** X10.  Whether a token is held, after each writer of the token (for a
    token width that is not zero): none after
    [device_clear_thing_token]; after [device_set_thing_credentials], and
    after a store that succeeded, one exactly when the token given is not
    empty; after a store that failed, as before.  And at any time a token
    is held exactly when the token buffer reads as a non-empty string. *)
Theorem device_has_thing_token_after_writers w (id token : chars) :
  (0 < KNOT_PROTOCOL_TOKEN_LEN)%nat →
  let rc :=
    properties_store_credentials E w (thing_credentials_path (thing w))
      (cstring (thing_id (thing w))) (cstring token) in
  (device_has_thing_token w = true ↔ cstring (thing_token (thing w)) ≠ [])
  ∧ device_has_thing_token
      (set_thing (device_clear_thing_token (thing w)) w) = false
  ∧ (device_has_thing_token
       (set_thing (device_set_thing_credentials (thing w) id token) w) = true
     ↔ cstring token ≠ [])
  ∧ (0 ≤ rc →
     (device_has_thing_token (device_store_credentials_on_file E token w).2
      = true ↔ cstring token ≠ []))
  ∧ (rc < 0 →
     device_has_thing_token (device_store_credentials_on_file E token w).2
     = device_has_thing_token w).
Proof.
  intros Hn rc.
  assert (Hset : ∀ dst,
    negb (is_nul (default NUL
            (head (strncpy dst token KNOT_PROTOCOL_TOKEN_LEN)))) = true
    ↔ cstring token ≠ []).
  { intros dst. rewrite head_strncpy by done. simpl.
    apply head_cstring_not_nul. }
  split; [|split; [|split; [|split]]].
  - unfold device_has_thing_token.
    destruct (thing_token (thing w)) as [|c buf]; simpl; [done|].
    destruct (is_nul c); simpl; split; done.
  - rewrite device_has_thing_token_head. simpl. unfold clear_first.
    by destruct (thing_token (thing w)).
  - rewrite device_has_thing_token_head. simpl. apply Hset.
  - intros Hrc. unfold device_store_credentials_on_file. fold rc.
    destruct (Z.ltb_spec rc 0) as [|_]; [lia|]. simpl.
    rewrite device_has_thing_token_head. simpl. apply Hset.
  - intros Hrc. unfold device_store_credentials_on_file. fold rc.
    destruct (Z.ltb_spec rc 0) as [_|]; [done|lia].
Qed.

(** X11.  The id that [device_generate_thing_id] leaves denotes the
    random draw: read as a hexadecimal number it is the 64-bit value drawn,
    whatever the id buffer held before.  Two draws that give the same id
    are therefore the same 64-bit value. *)
Theorem device_generate_thing_id_denotes_draw w :
  hex_value (device_get_id (device_generate_thing_id E w))
  = l_getrandom E w mod 2 ^ 64
  ∧ ∀ w2,
      device_get_id (device_generate_thing_id E w)
      = device_get_id (device_generate_thing_id E w2) →
      l_getrandom E w mod 2 ^ 64 = l_getrandom E w2 mod 2 ^ 64.
Proof.
  assert (Hval : ∀ w0,
    hex_value (device_get_id (device_generate_thing_id E w0))
    = l_getrandom E w0 mod 2 ^ 64).
  { intros w0. rewrite device_generate_thing_id_string.
    destruct (format_PRIx64_spec (l_getrandom E w0 mod 2 ^ 64))
      as (_ & _ & Hv & _).
    rewrite Hv. apply Z.mod_mod. lia. }
  split; [apply Hval|].
  intros w2 Heq. rewrite <- (Hval w), <- (Hval w2). by rewrite Heq.
Qed.
End IdentityMore.

(** *** More on the handshake timer *)

Section TimeoutMore.
Context `{KT : KnotTypes}.
Implicit Types (w : world) (s : Z).

(** X12.  With the slot empty and no timer alive, a create followed by a
    remove gives back the world as it was. *)
Theorem device_msg_timeout_create_remove_round_trip s w :
  msg_to (thing w) = None →
  timeouts w = ∅ →
  device_msg_timeout_remove (device_msg_timeout_create s w) = w.
Proof.
  intros Hslot Hnone.
  unfold device_msg_timeout_remove, device_msg_timeout_create.
  rewrite Hslot. simpl.
  destruct w as [t m ts st cs]. destruct t. simpl in *. subst.
  unfold set_thing, set_msg_to, set_timeouts. simpl.
  by rewrite delete_insert_eq, delete_empty.
Qed.

End TimeoutMore.

(** The credentials of the demo, set from a long id and a long token. *)
Lemma device_set_thing_credentials_read_back_witness :
  let id := String.list_ascii_of_string "0123456789abcdefXYZ" in
  let token := String.list_ascii_of_string "secret" in
  let t' := device_set_thing_credentials demo_thing id token in
  id_terminated demo_thing
  ∧ token_terminated demo_thing
  ∧ cstring (thing_id t') = String.list_ascii_of_string "0123456789abcdef"
  ∧ cstring (thing_token t') = String.list_ascii_of_string "secr".
Proof.
  intros id token t'.
  assert (H1 : id_terminated demo_thing) by reflexivity.
  assert (H2 : token_terminated demo_thing) by reflexivity.
  destruct (@device_set_thing_credentials_read_back demo_types demo_thing id
              token H1 H2) as (Hid & Htok & _).
  split; [exact H1|]. split; [exact H2|].
  split; [etrans; [exact Hid|reflexivity]|etrans; [exact Htok|reflexivity]].
Defined.

Lemma identity_writers_keep_buffers_witness :
  buffers_ok (thing (demo_world REGISTERING))
  ∧ buffers_ok
      (thing (device_generate_thing_id demo_env (demo_world REGISTERING))).
Proof.
  assert (H0 : buffers_ok (thing (demo_world REGISTERING))).
  { repeat split. }
  split; [exact H0|].
  destruct (identity_writers_keep_buffers demo_env (demo_world REGISTERING)
              [] [] H0) as (_ & _ & _ & Hgen & _).
  exact Hgen.
Defined.

(** The demo holds no token; once "abcdefgh" is stored it holds one. *)
Lemma device_has_thing_token_after_writers_witness :
  (0 < @KNOT_PROTOCOL_TOKEN_LEN demo_types)%nat
  ∧ device_has_thing_token (demo_world REGISTERING) = false
  ∧ device_has_thing_token
      (device_store_credentials_on_file demo_env
         (String.list_ascii_of_string "abcdefgh") (demo_world REGISTERING)).2
    = true.
Proof.
  assert (Hn : (0 < @KNOT_PROTOCOL_TOKEN_LEN demo_types)%nat)
    by (vm_compute; lia).
  split; [exact Hn|]. split; [reflexivity|].
  destruct (device_has_thing_token_after_writers demo_env
              (demo_world REGISTERING) []
              (String.list_ascii_of_string "abcdefgh") Hn)
    as (_ & _ & _ & Hok & _).
  apply (Hok ltac:(vm_compute; discriminate)). discriminate.
Defined.

Lemma device_msg_timeout_create_remove_round_trip_witness :
  msg_to (thing (demo_world REGISTERING)) = None
  ∧ timeouts (demo_world REGISTERING) = ∅
  ∧ device_msg_timeout_remove
      (device_msg_timeout_create 5 (demo_world REGISTERING))
    = demo_world REGISTERING.
Proof.
  split; [reflexivity|]. split; [reflexivity|].
  apply (@device_msg_timeout_create_remove_round_trip demo_types 5
           (demo_world REGISTERING)); reflexivity.
Defined.


(** *** Start-up, uploads and shutdown *)

Section LifecycleProperties.
Context `{KT : KnotTypes} (L : lifecycle_collaborators).
Variable order : l_hashmap knot_data_item → l_hashmap knot_data_item.
Implicit Types (b : boot) (visit : l_hashmap knot_data_item)
  (cs : list lifecycle_call).

Lemma polling_fold visit (rc : Z) b :
  let st :=
    fold_left (λ a kv, foreach_data_item_polling L kv.1 kv.2 a) visit (rc, b) in
  ∃ cs,
    st.2 = (b.1, b.2 ++ cs)
    ∧ omap poll_created cs = map (λ kv, sensor_id kv.2) visit
    ∧ Forall (λ c, is_poll_call c = true) cs
    ∧ (LC_poll_destroy ∉ cs)
    ∧ ((st.1 = rc
        ∧ cs = map (λ kv, LC_poll_create DEFAULT_POLLING_INTERVAL
                            (sensor_id kv.2)) visit)
       ∨ (st.1 = -1 ∧ LC_l_error ∈ cs)).
Proof.
  revert rc b. induction visit as [|[k d] visit IH]; intros rc b st; subst st.
  - exists []. destruct b as [w lg]. simpl. rewrite app_nil_r.
    split; [done|]. split; [done|]. split; [constructor|].
    split; [apply not_elem_of_nil|by left].
  - cbn [fold_left fst snd].
    assert (Hstep :
      foreach_data_item_polling L k d (rc, b)
      = if poll_create L b.2 DEFAULT_POLLING_INTERVAL (sensor_id d) =? 0
        then (rc, lc_log [LC_poll_create DEFAULT_POLLING_INTERVAL
                            (sensor_id d)] b)
        else (-1, lc_log [LC_l_error]
                    (lc_log [LC_poll_create DEFAULT_POLLING_INTERVAL
                               (sensor_id d)] b))).
    { unfold foreach_data_item_polling. simpl.
      by destruct (poll_create L b.2 DEFAULT_POLLING_INTERVAL (sensor_id d)
                   =? 0). }
    rewrite Hstep. clear Hstep.
    destruct (poll_create L b.2 DEFAULT_POLLING_INTERVAL (sensor_id d) =? 0).
    + destruct (IH rc
                  (lc_log [LC_poll_create DEFAULT_POLLING_INTERVAL
                             (sensor_id d)] b))
        as (cs & Hst & Hcreated & Hall & Hnd & Hrc).
      exists (LC_poll_create DEFAULT_POLLING_INTERVAL (sensor_id d) :: cs).
      split; [rewrite Hst; simpl; by rewrite <- app_assoc|].
      split; [simpl; f_equal; exact Hcreated|].
      split; [by constructor|].
      split; [rewrite not_elem_of_cons; by split|].
      destruct Hrc as [[Hr ->]|[Hr Herr]].
      * left. split; [exact Hr|reflexivity].
      * right. split; [exact Hr|by right].
    + destruct (IH (-1)
                  (lc_log [LC_l_error]
                     (lc_log [LC_poll_create DEFAULT_POLLING_INTERVAL
                                (sensor_id d)] b)))
        as (cs & Hst & Hcreated & Hall & Hnd & Hrc).
      exists (LC_poll_create DEFAULT_POLLING_INTERVAL (sensor_id d)
                :: LC_l_error :: cs).
      split; [rewrite Hst; simpl; by rewrite <- !app_assoc|].
      split; [simpl; f_equal; exact Hcreated|].
      split; [by repeat constructor|].
      split; [rewrite !not_elem_of_cons; by repeat split|].
      right. split; [destruct Hrc as [[Hr _]|[Hr _]]; exact Hr|].
      right. left.
Qed.

(** The outcome of [create_data_item_polling] in full. *)
Lemma create_data_item_polling_shape b :
  let r := create_data_item_polling L order b in
  let visit := order (data_items (thing b.1)) in
  (r = (0,
        (b.1,
         b.2 ++ map (λ kv, LC_poll_create DEFAULT_POLLING_INTERVAL
                             (sensor_id kv.2)) visit)))
  ∨ (∃ cs,
       r = (-1, (b.1, b.2 ++ cs ++ [LC_poll_destroy]))
       ∧ omap poll_created cs = map (λ kv, sensor_id kv.2) visit
       ∧ Forall (λ c, is_poll_call c = true) cs
       ∧ LC_l_error ∈ cs).
Proof.
  intros r visit. subst r. unfold create_data_item_polling, l_hashmap_foreach.
  fold visit.
  destruct (polling_fold visit 0 b) as (cs & Hst & Hcreated & Hall & Hnd & Hrc).
  destruct (fold_left _ visit (0, b)) as [rc b'] eqn:Hfold.
  simpl in *. subst b'.
  destruct Hrc as [[-> ->]|[-> Herr]]; simpl.
  - by left.
  - right. exists cs. unfold lc_log. simpl. by rewrite <- app_assoc.
Qed.


Lemma config_fold visit b :
  fold_left (λ a kv, foreach_config_add_data_item kv.1 kv.2 a) visit b
  = (b.1,
     b.2 ++ map (λ kv, LC_config_add_data_item (sensor_id kv.2) (config kv.2))
              visit).
Proof.
  revert b. induction visit as [|[k d] visit IH]; intros b; simpl.
  - rewrite app_nil_r. by destruct b.
  - rewrite IH. unfold foreach_config_add_data_item, lc_log. simpl.
    by rewrite <- app_assoc.
Qed.

(** X15.  [device_start_config] registers the config of every sensor of
    the registry, once for each entry, exactly when [config_start] did not
    fail, and then returns 0 whatever [config_start] returned; when
    [config_start] fails it returns that code and registers nothing. *)
Theorem device_start_config_registers_every_sensor b :
  (∀ h, order h ≡ₚ h) →
  let rc := config_start L b.2 in
  let r := device_start_config L order b in
  r.2.1 = b.1
  ∧ (rc < 0 → r.1 = rc ∧ r.2.2 = b.2 ++ [LC_config_start; LC_l_error])
  ∧ (0 ≤ rc →
     r.1 = 0
     ∧ ∃ adds,
         r.2.2 = b.2 ++ LC_config_start :: adds
         ∧ omap config_added adds
           ≡ₚ map (λ kv, (sensor_id kv.2, config kv.2))
                (data_items (thing b.1))
         ∧ length adds = length (data_items (thing b.1))).
Proof.
  intros Hperm rc r. subst r. unfold device_start_config. fold rc.
  unfold l_hashmap_foreach. rewrite config_fold.
  destruct (Z.ltb_spec rc 0) as [Hneg|Hpos]; simpl.
  - split; [done|]. split; [|lia]. intros _.
    by rewrite <- app_assoc.
  - split; [done|]. split; [lia|]. intros _. split; [done|].
    eexists. split; [by rewrite <- app_assoc|].
    split.
    + rewrite <- (Hperm (data_items (thing b.1))) at 2.
      induction (order (data_items (thing b.1))) as [|kv l IH]; [done|].
      simpl. by rewrite IH.
    + by rewrite length_map, (Hperm (data_items (thing b.1))).
Qed.

Lemma schema_fold visit (acc : list (Z * knot_schema)) :
  fold_left (λ a kv, foreach_send_schema L kv.1 kv.2 a) visit acc
  = reverse (map (λ kv, (schema_sensor_id L (sensor_id kv.2), schema kv.2))
               visit)
    ++ acc.
Proof.
  revert acc. induction visit as [|[k d] visit IH]; intros acc; simpl; [done|].
  rewrite IH, reverse_cons, <- app_assoc. done.
Qed.

(** X16.  [device_send_schema] hands the cloud, in one call made with the
    device id, one schema for each entry of the registry (the last entry
    visited first), and returns what the cloud returned. *)
Theorem device_send_schema_one_per_sensor b :
  (∀ h, order h ≡ₚ h) →
  let r := device_send_schema L order b in
  r.2.1 = b.1
  ∧ ∃ schemas,
      r.2.2
      = b.2 ++ [LC_knot_cloud_update_schema (cstring (thing_id (thing b.1)))
                  schemas]
      ∧ r.1
        = knot_cloud_update_schema L b.2 (cstring (thing_id (thing b.1)))
            schemas
      ∧ schemas
        ≡ₚ map (λ kv, (schema_sensor_id L (sensor_id kv.2), schema kv.2))
             (data_items (thing b.1)).
Proof.
  intros Hperm r. subst r. unfold device_send_schema, l_hashmap_foreach.
  rewrite schema_fold, app_nil_r. simpl. split; [done|].
  eexists. split; [done|]. split; [done|].
  by rewrite reverse_Permutation, Hperm.
Qed.



(** The five ways [device_start] can go. *)
Lemma device_start_shape b :
  let r := device_start L order b in
  let loading :=
    properties_create_device L (set_data_items l_hashmap_new (thing b.1)) in
  let t := loading.2 in
  let polls :=
    map (λ kv, LC_poll_create DEFAULT_POLLING_INTERVAL (sensor_id kv.2))
      (order (data_items t)) in
  let modbus :=
    LC_iface_modbus_start (slave_url (thing_modbus_slave t))
      (slave_id (thing_modbus_slave t)) in
  let cloud :=
    LC_knot_cloud_start (thing_rabbitmq_url t) (thing_user_token t) in
  let frees :=
    [LC_l_free (thing_user_token t); LC_l_free (thing_rabbitmq_url t);
     LC_l_free (slave_url (thing_modbus_slave t));
     LC_l_free (thing_credentials_path t); LC_l_hashmap_destroy] in
  (loading.1 ≠ 0
   ∧ r = (- EINVAL,
          (set_thing t b.1, b.2 ++ [LC_properties_create_device; LC_l_error])))
  ∨ (∃ pcs,
       Forall (λ c, is_poll_call c = true) pcs
       ∧ r.1 = -1
       ∧ r.2.2
         = b.2 ++ [LC_properties_create_device; LC_sm_start] ++ pcs
           ++ [LC_poll_destroy; LC_l_error] ++ frees)
  ∨ (∃ err,
       err < 0 ∧ r.1 = err
       ∧ r.2.2
         = b.2 ++ [LC_properties_create_device; LC_sm_start] ++ polls
           ++ [modbus; LC_l_error; LC_poll_destroy] ++ frees)
  ∨ (∃ err,
       err < 0 ∧ r.1 = err
       ∧ r.2.2
         = b.2 ++ [LC_properties_create_device; LC_sm_start] ++ polls
           ++ [modbus; cloud; LC_l_error; LC_poll_destroy;
               LC_iface_modbus_stop] ++ frees)
  ∨ (r = (0,
          (set_thing t b.1,
           b.2 ++ [LC_properties_create_device; LC_sm_start] ++ polls
           ++ [modbus; cloud]))).
Proof.
  intros r loading t polls modbus cloud frees. subst r.
  unfold device_start. fold loading. fold t.
  destruct (Z.eqb_spec loading.1 0) as [Hok|Hko]; simpl.
  2: { left. split; [done|]. unfold lc_log. simpl. by rewrite <- app_assoc. }
  right.
  set (b1 := lc_log [LC_sm_start]
               (set_thing t b.1, b.2 ++ [LC_properties_create_device])).
  destruct (create_data_item_polling_shape b1) as [Heq|(pcs & Heq & _ & Hp & _)];
    rewrite Heq; clear Heq; simpl.
  - right.
    match goal with |- context [iface_modbus_start L ?lg ?u ?s] =>
      destruct (Z.ltb_spec (iface_modbus_start L lg u s) 0) as [Hm|Hm] end;
      simpl.
    { left. eexists. split; [exact Hm|]. split; [done|].
      unfold knot_thing_destroy, lc_log. simpl.
      by rewrite <- !app_assoc. }
    right.
    match goal with |- context [knot_cloud_start L ?lg ?u ?s] =>
      destruct (Z.ltb_spec (knot_cloud_start L lg u s) 0) as [Hc|Hc] end;
      simpl.
    { left. eexists. split; [exact Hc|]. split; [done|].
      unfold knot_thing_destroy, lc_log. simpl.
      by rewrite <- !app_assoc. }
    right. unfold lc_log. simpl. by rewrite <- !app_assoc.
  - left. exists pcs. split; [done|]. split; [done|].
    unfold knot_thing_destroy, lc_log. simpl. by rewrite <- !app_assoc.
Qed.

(** X18.  [device_start] returns 0 or a negative code.  When it returns
    0 the calls it has made are, in this order: the loading of the
    properties, the start of the state machine, the creation of one poll
    for each sensor that the loader declared, the start of Modbus with
    the slave's url and id, and the start of the cloud with its url and
    the user token; nothing is stopped, destroyed or logged as an error,
    and the thing is the one the loader filled. *)
Theorem device_start_success_calls b :
  let r := device_start L order b in
  let t :=
    (properties_create_device L (set_data_items l_hashmap_new (thing b.1))).2 in
  (r.1 = 0 ∨ r.1 < 0)
  ∧ (r.1 = 0 →
     r.2.1 = set_thing t b.1
     ∧ r.2.2
       = b.2 ++ [LC_properties_create_device; LC_sm_start]
         ++ map (λ kv, LC_poll_create DEFAULT_POLLING_INTERVAL
                         (sensor_id kv.2))
              (order (data_items t))
         ++ [LC_iface_modbus_start (slave_url (thing_modbus_slave t))
               (slave_id (thing_modbus_slave t));
             LC_knot_cloud_start (thing_rabbitmq_url t)
               (thing_user_token t)]).
Proof.
  intros r t. subst r.
  destruct (device_start_shape b)
    as [[_ ->]|[(pcs & _ & Hr & _)|[(err & He & Hr & _)
        |[(err & He & Hr & _)| ->]]]]; simpl.
  - split; [right; unfold EINVAL; lia|]. unfold EINVAL. discriminate.
  - rewrite Hr. split; [right; lia|]. discriminate.
  - rewrite Hr. split; [by right|]. lia.
  - rewrite Hr. split; [by right|]. lia.
  - split; [by left|]. done.
Qed.


End LifecycleProperties.


Lemma device_start_config_registers_every_sensor_witness :
  (∀ h, demo_order h ≡ₚ h)
  ∧ 0 ≤ config_start (demo_lifecycle true true true) demo_boot.2
  ∧ (device_start_config (demo_lifecycle true true true) demo_order
       demo_boot).1 = 0
  ∧ ∃ adds : list (@lifecycle_call demo_types),
      length adds = 3%nat
      ∧ omap (@config_added demo_types) adds ≡ₚ [(1, 0); (2, 0); (3, 0)].
Proof.
  assert (Ho : ∀ h, demo_order h ≡ₚ h) by done.
  assert (Hrc : 0 ≤ config_start (demo_lifecycle true true true) demo_boot.2)
    by (vm_compute; discriminate).
  split; [exact Ho|]. split; [exact Hrc|].
  destruct (device_start_config_registers_every_sensor
              (demo_lifecycle true true true) demo_order demo_boot Ho)
    as (_ & _ & Hok).
  destruct (Hok Hrc) as (Hr & adds & _ & Hperm & Hlen).
  split; [exact Hr|]. exists adds. split; [exact Hlen|exact Hperm].
Defined.

Lemma device_send_schema_one_per_sensor_witness :
  (∀ h, demo_order h ≡ₚ h)
  ∧ ∃ schemas,
      (device_send_schema (demo_lifecycle true true true) demo_order
         demo_boot).2.2
      = [@LC_knot_cloud_update_schema demo_types [] schemas]
      ∧ schemas ≡ₚ [(1, 10); (2, 20); (3, 30)].
Proof.
  assert (Ho : ∀ h, demo_order h ≡ₚ h) by done.
  split; [exact Ho|].
  destruct (device_send_schema_one_per_sensor (demo_lifecycle true true true)
              demo_order demo_boot Ho) as (_ & schemas & Hlog & _ & Hperm).
  exists schemas. split; [exact Hlog|exact Hperm].
Defined.


(** The demo starts: three polls, Modbus, the cloud. *)
Lemma device_start_success_calls_witness :
  (device_start (demo_lifecycle true true true) demo_order demo_boot).1 = 0
  ∧ (device_start (demo_lifecycle true true true) demo_order demo_boot).2.2
    = [@LC_properties_create_device demo_types; LC_sm_start;
       LC_poll_create 1 1; LC_poll_create 1 2; LC_poll_create 1 3;
       LC_iface_modbus_start [] 1; LC_knot_cloud_start [] []].
Proof.
  destruct (device_start_success_calls (demo_lifecycle true true true)
              demo_order demo_boot) as [_ Hok].
  assert (Hr : (device_start (demo_lifecycle true true true) demo_order
                  demo_boot).1 = 0) by reflexivity.
  destruct (Hok Hr) as [_ Hlog].
  split; [exact Hr|]. etrans; [exact Hlog|reflexivity].
Defined.

